(** * Aperture photometry pipeline: tracking loop, clamping and coordinate parsing

    A shallow embedding of [aperture_photometry_pipeline.ipynb]:
    the coordinate-file parser (cell 4), the helpers [centroid] and
    [find_objects_stats], and the per-frame loop with its track-loss retry.

    Modelling choices, all taken from the notebook:
    - frames are two-dimensional numpy arrays of binary64 values, embedded as
      [list (list float)] over the kernel's primitive floats;
    - the hypothesis table [starting_positions] is a three-dimensional integer
      array; [positions] is a column *view* of it, so it is embedded as a column
      number into the shared table and every write goes through to the table;
    - pixel coordinates are embedded in [Z]; they are pixel indexes, far from
      the limits of numpy's fixed-width integers;
    - Python exceptions are values of [exn]; an exception that nobody catches
      aborts the run, so a raising computation returns no state;
    - library calls whose source is not part of the notebook ([np.sum],
      [np.median], [np.log10], photutils' aperture sum, [float] on a string) are
      the fields of the class [Extern], and the two command-line settings are
      the fields of the class [Config]. *)

From Stdlib Require Import ZArith List String Ascii Bool Lia.
From Stdlib Require Import Floats.
From stdpp Require Import base list sorting.

Set Warnings "-inexact-float".
Local Open Scope Z_scope.

(** ** Exceptions and the error monad *)

Inductive exn : Type :=
| IndexError
| ValueError
| OverflowError.

Inductive result (A : Type) : Type :=
| Ok (a : A)
| Raise (e : exn).
Arguments Ok {A} a.
Arguments Raise {A} e.

Definition raises {A} (r : result A) : Prop := exists e, r = Raise e.

Global Instance result_ret : MRet result := fun _ a => Ok a.
Global Instance result_bind : MBind result := fun _ _ f m =>
  match m with
  | Ok a => f a
  | Raise e => Raise e
  end.

(** ** numpy and Python primitives *)

Module Numpy.

(** A slice bound [i] of [a[i:j]] on a sequence of length [n]: a negative bound
    counts from the end, and every bound is clipped into [0..n]. *)
Definition slice_bound (n i : Z) : Z :=
  if i <? 0 then Z.max (i + n) 0 else Z.min i n.

(** [l[lo:hi]] *)
Definition slice {A} (lo hi : Z) (l : list A) : list A :=
  let n := Z.of_nat (length l) in
  let s := slice_bound n lo in
  let e := slice_bound n hi in
  take (Z.to_nat (e - s)) (drop (Z.to_nat s) l).

(** [data[r0:r1, c0:c1]] on a two-dimensional array *)
Definition slice2 {A} (r0 r1 c0 c1 : Z) (data : list (list A)) : list (list A) :=
  slice c0 c1 <$> slice r0 r1 data.

(** [l[i]]: a negative index counts from the end, an index outside
    [-n .. n-1] raises IndexError. *)
Definition index {A} (l : list A) (i : Z) : result A :=
  let n := Z.of_nat (length l) in
  let k := if i <? 0 then i + n else i in
  if (0 <=? k) && (k <? n)
  then match l !! Z.to_nat k with
       | Some a => Ok a
       | None => Raise IndexError
       end
  else Raise IndexError.

(** Conversion of an integer to binary64 (round to nearest even). *)
Definition float_of_Z (z : Z) : float :=
  SF2Prim (binary_normalize prec emax z 0 false).

(** Python's [int(f)] on a float: truncation toward zero; NaN raises
    ValueError and an infinity raises OverflowError. *)
Definition py_int (f : float) : result Z :=
  match Prim2SF f with
  | S754_nan => Raise ValueError
  | S754_infinity _ => Raise OverflowError
  | S754_zero _ => Ok 0
  | S754_finite s m e =>
      let a := if 0 <=? e then Z.pos m * 2 ^ e else Z.pos m / 2 ^ (- e) in
      Ok (if s then - a else a)
  end.

(** NaN or an infinity *)
Definition non_finite (f : float) : bool :=
  match Prim2SF f with
  | S754_nan | S754_infinity _ => true
  | _ => false
  end.

Abbreviation frame := (list (list float)).

(** The library calls of the notebook: [np.sum] and [np.median] of a
    two-dimensional array, [np.log10], photutils' sum of one circular aperture
    of radius [r] centred at a position, and Python's [float] on a string. *)
Class Extern := {
  np_sum : frame -> float;
  np_median : frame -> float;
  np_log10 : float -> float;
  aperture_sum_at : Z -> frame -> float * float -> float;
  py_float : string -> result float
}.

(** The two settings read from the command line, [offset] (default 10) and
    [radius] (default 5). *)
Class Config := { offset : Z; radius : Z }.

End Numpy.

(** ** Reading the coordinate file (cell 4) *)

Module Coords.
Import Numpy.

(** [s.split(sep)] for a one-character separator: every occurrence splits, so
    the result has one more element than there are separators. *)
Fixpoint split (sep : ascii) (s : string) : list string :=
  match s with
  | EmptyString => [EmptyString]
  | String c s' =>
      if Ascii.eqb c sep then EmptyString :: split sep s'
      else match split sep s' with
           | [] => [String c EmptyString]
           | w :: ws => String c w :: ws
           end
  end.

(** No character of the line is the separator. *)
Definition lacks (sep : ascii) (line : string) : Prop :=
  Forall (fun c => c <> sep) (list_ascii_of_string line).

(** [s[1:]] *)
Definition drop_first (s : string) : string :=
  match s with
  | EmptyString => EmptyString
  | String _ s' => s'
  end.

(** [s[:-1]] *)
Fixpoint drop_last (s : string) : string :=
  match s with
  | EmptyString => EmptyString
  | String c EmptyString => EmptyString
  | String c s' => String c (drop_last s')
  end.

(** The hypothesis table: one row for each object, one entry [(x, y)] for each
    hypothesis round. *)
Abbreviation table := (list (list (Z * Z))).

(** [names.index(name)] *)
Fixpoint names_index (name : string) (names : list string) : option nat :=
  match names with
  | [] => None
  | n :: ns => if String.eqb name n then Some 0%nat
               else S <$> names_index name ns
  end.

(** The two assignments of the loop body: splitting at [':'] and converting
    the two coordinates, in the order in which Python evaluates them. *)
Definition parse_line `{Extern} (line : string) : result (string * (Z * Z)) :=
  name ← index (split ":" line) 0;
  coord ← index (split ":" line) 1;
  c0 ← index (split "," coord) 0;
  fx ← py_float (drop_first c0);
  xcor ← py_int fx;
  c1 ← index (split "," coord) 1;
  fy ← py_float (drop_last c1);
  ycor ← py_int fy;
  Ok (name, (xcor, ycor)).

(** The [if name in names] statement. *)
Definition add_coord (acc : list string * table) (name : string) (xy : Z * Z)
  : list string * table :=
  let '(names, starting_positions) := acc in
  match names_index name names with
  | Some k => (names, alter (fun row => row ++ [xy]) k starting_positions)
  | None => (names ++ [name], starting_positions ++ [[xy]])
  end.

(** [for line in lines] *)
Fixpoint parse_lines `{Extern} (lines : list string) (acc : list string * table)
  : result (list string * table) :=
  match lines with
  | [] => Ok acc
  | line :: lines' =>
      '(name, xy) ← parse_line line;
      parse_lines lines' (add_coord acc name xy)
  end.

(** [np.array(starting_positions)]: the rows must have one length for the
    result to be the three-dimensional array that [starting_positions[:,0]]
    indexes. *)
Definition np_array (sp : table) : result table :=
  match sp with
  | [] => Ok sp
  | row0 :: _ =>
      if forallb (fun row => Nat.eqb (length row) (length row0)) sp
      then Ok sp else Raise ValueError
  end.

(** The [with open(coord_file)] block followed by the conversion to an
    array, on the text of the file. *)
Definition read_coords `{Extern} (text : string) : result (list string * table) :=
  '(names, sp) ← parse_lines (split "010" text) ([], []);
  sp' ← np_array sp;
  Ok (names, sp').

End Coords.

(** ** The centroid tracker: [centroid] and [find_objects_stats] *)

Module Tracker.
Import Numpy Coords.

(** [len(data)] *)
Definition height (data : frame) : Z := Z.of_nat (length data).

(** [len(data[0])]: indexing an array without rows raises IndexError. *)
Definition width (data : frame) : result Z :=
  row ← index data 0; Ok (Z.of_nat (length row)).

(** The [if]/[elif] chain at the head of the loop body of
    [find_objects_stats]; [p] is [positions[i]], with [fst p] its entry 0 (x)
    and [snd p] its entry 1 (y). The result is [positions[i]] after the chain.
    The width is only evaluated when the fourth test is reached. The [print]
    of the first branch writes to the standard output and is left out. *)
Definition clamp `{Config} (data : frame) (p : Z * Z) : result (Z * Z) :=
  let '(x, y) := p in
  if y - offset <? 0 then Ok (x, offset)
  else if y + offset >=? height data then Ok (x, height data - offset - 1)
  else if x - offset <? 0 then Ok (0, y)
  else
    w ← width data;
    if x + offset >=? w then Ok (w - offset - 1, y)
    else Ok (x, y).

(** The bounds of the slice
    [data[y - offset : y + offset, x - offset : x + offset]]
    as the source computes them, rows first. *)
Definition window_bounds `{Config} (p : Z * Z) : (Z * Z) * (Z * Z) :=
  ((snd p - offset, snd p + offset), (fst p - offset, fst p + offset)).

(** [data_region] *)
Definition window `{Config} (data : frame) (p : Z * Z) : frame :=
  let '((r0, r1), (c0, c1)) := window_bounds p in
  slice2 r0 r1 c0 c1 data.

(** The inner loop of [centroid] over the columns [j] of row [i]. *)
Fixpoint centroid_row (i j : Z) (row : list float) (acc : float * float)
  : float * float :=
  match row with
  | [] => acc
  | v :: row' =>
      centroid_row i (j + 1) row'
        (fst acc + v * float_of_Z j, snd acc + v * float_of_Z i)%float
  end.

(** The outer loop of [centroid] over the rows. *)
Fixpoint centroid_rows (i : Z) (arr : frame) (acc : float * float)
  : float * float :=
  match arr with
  | [] => acc
  | row :: arr' => centroid_rows (i + 1) arr' (centroid_row i 0 row acc)
  end.

(** [centroid(arr)]: the two moments divided by [np.sum(arr)]. The division
    is numpy's binary64 division, which does not raise on a zero divisor. *)
Definition centroid `{Extern} (arr : frame) : float * float :=
  let '(x_sum, y_sum) := centroid_rows 0 arr (0, 0)%float in
  (x_sum / np_sum arr, y_sum / np_sum arr)%float.

(** [cen], the centroid re-indexed to frame coordinates. *)
Definition reindex `{Config} (sub : float * float) (p : Z * Z) : float * float :=
  (fst sub + float_of_Z (fst p) - float_of_Z offset,
   snd sub + float_of_Z (snd p) - float_of_Z offset)%float.

(** [data[int(cen[1])][int(cen[0])]] *)
Definition peak_at (data : frame) (cen : float * float) : result float :=
  iy ← py_int (snd cen);
  row ← index data iy;
  ix ← py_int (fst cen);
  index row ix.

(** One turn of the loop of [find_objects_stats] on the position [p]: the
    position after clamping, the centroid and the peak. *)
Definition track_one `{Config} `{Extern} (data : frame) (p : Z * Z)
  : result ((Z * Z) * (float * float) * float) :=
  p' ← clamp data p;
  let cen := reindex (centroid (window data p')) p' in
  peak ← peak_at data cen;
  Ok (p', cen, peak).

(** The entry of object [i] in hypothesis round [k], when the table has it. *)
Definition cell (sp : table) (i k : nat) : option (Z * Z) :=
  sp !! i ≫= (.!! k).

(** [positions[i]] where [positions] is the view [starting_positions[:,col]]. *)
Definition get_pos (sp : table) (col i : nat) : result (Z * Z) :=
  match cell sp i col with
  | Some p => Ok p
  | None => Raise IndexError
  end.

(** A write to [positions[i]]: it goes through the view into the table. *)
Definition set_pos (sp : table) (col i : nat) (p : Z * Z) : table :=
  alter (<[col := p]>) i sp.

(** [for i in range(len(positions))], with the two lists it appends to. *)
Fixpoint track_loop `{Config} `{Extern} (data : frame) (col : nat)
  (todo : list nat) (sp : table)
  (centroids : list (float * float)) (peaks : list float)
  : result (table * list (float * float) * list float) :=
  match todo with
  | [] => Ok (sp, centroids, peaks)
  | i :: todo' =>
      p ← get_pos sp col i;
      '(p', cen, peak) ← track_one data p;
      track_loop data col todo' (set_pos sp col i p')
        (centroids ++ [cen]) (peaks ++ [peak])
  end.

(** A row of the table that [aperture_photometry] returns. *)
Record phot_row := {
  xcenter : float;
  ycenter : float;
  aperture_sum : float
}.

(** [aperture_photometry(data, CircularAperture(centroids, r=radius))]: one
    row for each centre, in the order of the centres. *)
Definition aperture_photometry `{Config} `{Extern} (data : frame)
  (centroids : list (float * float)) : list phot_row :=
  (fun cen => {| xcenter := fst cen; ycenter := snd cen;
                 aperture_sum := aperture_sum_at radius data cen |})
    <$> centroids.

(** [find_objects_stats(data, positions, file)] where [positions] views the
    column [col] of [sp]; the table after the call is part of the result. *)
Definition find_objects_stats `{Config} `{Extern} (data : frame)
  (sp : table) (col : nat) : result (table * list phot_row * list float) :=
  '(sp', centroids, peaks) ← track_loop data col (seq 0 (length sp)) sp [] [];
  Ok (sp', aperture_photometry data centroids, peaks).

End Tracker.

(** ** The loop over the frames *)

Module Pipeline.
Import Numpy Coords Tracker.

(** What the loop reads from one FITS file: its name, the pixel array, and the
    header entries UTCSTART (as the MJD computed from it) and EXPTIME. *)
Record fits := {
  filename : string;
  data_wsky : frame;
  MJD : float;
  exptime : float
}.

(** A row of [aperture_table]. *)
Record record := {
  rec_xcenter : float;
  rec_ycenter : float;
  rec_aperture_sum : float;
  rec_aperture_mag : float;
  rec_peak : float;
  rec_name : string;
  rec_R : Z;
  rec_sky : float;
  rec_MJD : float;
  rec_exptime : float;
  rec_filename : string
}.

(** The variables that live across the iterations of the loop. [positions]
    is the column of [starting_positions] that the view [positions] shows. *)
Record state := {
  starting_positions : table;
  positions : nat;
  starting_positions_index : nat;
  aperture_table : list record
}.

Definition fluxzero : float := 10.91926955%float.
Definition magzero : float := 22.40441725%float.

(** [-2.5*(np.log10(aperture_sum / fluxzero)) + magzero] *)
Definition aperture_mag `{Extern} (s : float) : float :=
  ((-2.5) * np_log10 (s / fluxzero) + magzero)%float.

(** [any(i < 0 for i in phot_table["aperture_sum"])] *)
Definition any_negative (phot_table : list phot_row) : bool :=
  existsb (fun r => (aperture_sum r <? 0)%float) phot_table.

(** [len(starting_positions[0])], the number of hypothesis rounds. *)
Definition rounds (sp : table) : result nat :=
  row ← index sp 0; Ok (length row).

(** The [if any(...)] statement: the table, the column viewed by
    [positions], the index, and the photometry that the rest of the iteration
    uses. *)
Definition retrack `{Config} `{Extern} (data : frame) (sp : table)
  (col idx : nat) (phot_table : list phot_row) (peaks : list float)
  : result (table * nat * nat * list phot_row * list float) :=
  if any_negative phot_table then
    let idx' := S idx in
    n ← rounds sp;
    if (idx' <? n)%nat then
      '(sp', phot_table', peaks') ← find_objects_stats data sp idx';
      Ok (sp', idx', idx', phot_table', peaks')
    else Ok (sp, col, idx', phot_table, peaks)
  else Ok (sp, col, idx, phot_table, peaks).

(** The column assignments that complete the rows of [phot_table]; assigning
    [names] to a table with another number of rows raises ValueError. *)
Definition complete_rows `{Config} `{Extern} (names : list string)
  (file : fits) (skybkg : float)
  (phot_table : list phot_row) (peaks : list float) : result (list record) :=
  if negb (Nat.eqb (length peaks) (length phot_table)) then Raise ValueError
  else if negb (Nat.eqb (length names) (length phot_table)) then Raise ValueError
  else Ok (zip_with (fun rp name =>
        {| rec_xcenter := xcenter (fst rp);
           rec_ycenter := ycenter (fst rp);
           rec_aperture_sum := aperture_sum (fst rp);
           rec_aperture_mag := aperture_mag (aperture_sum (fst rp));
           rec_peak := snd rp;
           rec_name := name;
           rec_R := radius;
           rec_sky := skybkg;
           rec_MJD := MJD file;
           rec_exptime := exptime file;
           rec_filename := filename file |})
        (zip phot_table peaks) names).

(** The final loop of the iteration:
    [positions[i] = [int(xcenter[i]), int(ycenter[i])]]. *)
Fixpoint update_positions (sp : table) (col : nat) (i : nat)
  (phot_table : list phot_row) : result table :=
  match phot_table with
  | [] => Ok sp
  | r :: rest =>
      ix ← py_int (xcenter r);
      iy ← py_int (ycenter r);
      _ ← get_pos sp col i;
      update_positions (set_pos sp col i (ix, iy)) col (S i) rest
  end.

(** [skybkg = np.median(data_wsky)] *)
Definition skybkg `{Extern} (file : fits) : float := np_median (data_wsky file).

(** [data = data_wsky - skybkg] *)
Definition subtract_sky `{Extern} (file : fits) : frame :=
  let sky := skybkg file in
  (fun row : list float => (fun v => v - sky)%float <$> row)
    <$> data_wsky file.

(** The body of [for file in fits_filenames]. *)
Definition process_frame `{Config} `{Extern} (names : list string)
  (st : state) (file : fits) : result state :=
  let data := subtract_sky file in
  '(sp1, phot_table, peaks) ←
     find_objects_stats data (starting_positions st) (positions st);
  '(sp2, col, idx, phot_table2, peaks2) ←
     retrack data sp1 (positions st) (starting_positions_index st)
       phot_table peaks;
  rows ← complete_rows names file (skybkg file) phot_table2 peaks2;
  sp3 ← update_positions sp2 col 0 phot_table2;
  Ok {| starting_positions := sp3;
        positions := col;
        starting_positions_index := idx;
        aperture_table := aperture_table st ++ rows |}.

(** The rows that the iteration appends to [aperture_table] are the rows
    completed from the photometry [phot_table] and the peaks [peaks]. *)
Definition recorded `{Config} `{Extern} (names : list string) (file : fits)
  (st st' : state) (phot_table : list phot_row) (peaks : list float) : Prop :=
  exists rows,
    complete_rows names file (skybkg file) phot_table peaks = Ok rows /\
    aperture_table st' = aperture_table st ++ rows.

(** Whether the first photometry of a frame has a negative aperture sum. *)
Definition first_pass_negative `{Config} `{Extern} (st : state) (file : fits)
  : bool :=
  match find_objects_stats (subtract_sky file)
          (starting_positions st) (positions st) with
  | Ok (_, phot_table, _) => any_negative phot_table
  | Raise _ => false
  end.

(** What relates a state of the loop to the table [sp0] read from the
    coordinate file: the viewed column is not above the index, it is the column
    of the index as long as the index is below the number of rounds, and the
    columns above the viewed one still hold the entries of [sp0]. *)
Definition view_inv (sp0 : table) (st : state) : Prop :=
  (positions st <= starting_positions_index st)%nat /\
  rounds (starting_positions st) = rounds sp0 /\
  (forall n, rounds sp0 = Ok n -> (starting_positions_index st < n)%nat ->
             positions st = starting_positions_index st) /\
  (forall i k, (positions st < k)%nat ->
               cell (starting_positions st) i k = cell sp0 i k).

(** The state before the loop: [positions = starting_positions[:,0]],
    [starting_positions_index = 0] and the empty table. *)
Definition initial (sp : table) : state :=
  {| starting_positions := sp;
     positions := 0;
     starting_positions_index := 0;
     aperture_table := [] |}.

(** [for file in fits_filenames] *)
Fixpoint process_frames `{Config} `{Extern} (names : list string)
  (st : state) (files : list fits) : result state :=
  match files with
  | [] => Ok st
  | file :: files' =>
      st' ← process_frame names st file;
      process_frames names st' files'
  end.

(** The notebook from the reading of the coordinate file to the end of the
    loop, on the text of the file and the frames. [starting_positions[:,0]]
    raises IndexError on an array without entries. *)
Definition pipeline `{Config} `{Extern} (text : string) (files : list fits)
  : result (list record) :=
  '(names, sp) ← read_coords text;
  _ ← get_pos sp 0 0;
  st ← process_frames names (initial sp) files;
  Ok (aperture_table st).

End Pipeline.

(** ** The clamping rules as the specification lists them *)

Module ClampSpec.
Import Numpy.






(** A slice [lo:hi] stays inside a dimension of [n] cells. *)
Definition inside (n : Z) (b : Z * Z) : Prop := 0 <= fst b /\ snd b <= n.

End ClampSpec.

(** ** Concrete inputs for the examples *)

Module Examples.
Import Numpy Coords Tracker Pipeline.

(** Summation in row order. numpy adds the values in another order; on the
    frames below every partial sum is a small integer, so the order does not
    change the result. *)
Definition seq_sum (arr : frame) : float :=
  fold_left (fun acc row => fold_left PrimFloat.add row acc) arr 0%float.

Fixpoint insert_sorted (v : float) (l : list float) : list float :=
  match l with
  | [] => [v]
  | u :: l' => if (v <=? u)%float then v :: l else u :: insert_sorted v l'
  end.

(** The median of all the pixels: the middle value of the sorted values, or the
    mean of the two middle values. *)
Definition sorted_median (arr : frame) : float :=
  let vs := fold_right insert_sorted [] (concat arr) in
  let n := length vs in
  if Nat.even n
  then ((nth (n / 2 - 1) vs 0 + nth (n / 2) vs 0) / 2)%float
  else nth (n / 2) vs 0%float.

(** The pixels whose centre lies within [r] of the position, summed. photutils
    weighs a pixel that the circle cuts by the part of it inside the circle; in
    the examples the only pixel that differs from the sky is the centre of the
    aperture, so both sums agree. *)
Definition center_sum (r : Z) (data : frame) (cen : float * float) : float :=
  let inside (i j : nat) : bool :=
    let dx := (float_of_Z (Z.of_nat j) - fst cen)%float in
    let dy := (float_of_Z (Z.of_nat i) - snd cen)%float in
    (dx * dx + dy * dy <=? float_of_Z (r * r))%float in
  fold_left PrimFloat.add
    (concat (imap (fun i row =>
       omap (fun jv => if inside i (fst jv) then Some (snd jv) else None)
            (imap (fun j v => (j, v)) row)) data))
    0%float.

Definition digit_of (c : ascii) : option Z :=
  let n := Z.of_N (N_of_ascii c) in
  if (48 <=? n) && (n <=? 57) then Some (n - 48) else None.

Fixpoint digits_value (acc : Z) (s : string) : option Z :=
  match s with
  | EmptyString => Some acc
  | String c s' => d ← digit_of c; digits_value (10 * acc + d) s'
  end.

Fixpoint strip_left (s : string) : string :=
  match s with
  | String " " s' => strip_left s'
  | _ => s
  end.

(** [float] on the unsigned decimal integers that the coordinate files of the
    examples hold, with the leading blanks that [float] accepts. *)
Definition float_of_digits (s : string) : result float :=
  match strip_left s with
  | EmptyString => Raise ValueError
  | s' => match digits_value 0 s' with
          | Some z => Ok (float_of_Z z)
          | None => Raise ValueError
          end
  end.

(** The logarithm is not computed in the examples, which do not look at the
    magnitudes: binary64 has no logarithm in the kernel. *)
Definition test_extern : Extern := {|
  np_sum := seq_sum;
  np_median := sorted_median;
  np_log10 := fun _ => nan;
  aperture_sum_at := center_sum;
  py_float := float_of_digits
|}.

(** The default settings. *)
Definition default_config : Config := {| offset := 10; radius := 5 |}.

Definition const_frame (h w : nat) (v : float) : frame :=
  repeat (repeat v w) h.

(** [data[row][col] = v] *)
Definition with_pixel (row col : nat) (v : float) (data : frame) : frame :=
  alter (<[col := v]>) row data.

(** A 30 x 30 frame with the value 1 everywhere, sky included. *)
Definition ones : frame := const_frame 30 30 1%float.

(** A 30 x 30 frame of sky 0 with one bright pixel at row 10, column 15. *)
Definition star : frame := with_pixel 10 15 9%float (const_frame 30 30 0%float).

(** A 30 x 30 frame of sky 5 with one dark pixel at row 15, column 12. *)
Definition dip : frame := with_pixel 15 12 1%float (const_frame 30 30 5%float).

(** A 30 x 30 frame of sky 5 with a dark pixel at row 25, column 3 and a
    bright pixel at row 3, column 25. *)
Definition dip_star : frame :=
  with_pixel 25 3 1%float
    (with_pixel 3 25 9%float (const_frame 30 30 5%float)).

Definition file_of (name : string) (data : frame) : fits :=
  {| filename := name; data_wsky := data; MJD := 59000%float; exptime := 30%float |}.

End Examples.

(** ** Selecting the frames of a directory (cell 3) *)

Module Files.
Import Numpy Coords.

(** [filename.split(".")[-1] == "fits"] *)
Definition has_fits_file_extension (filename : string) : result bool :=
  ext ← index (split "." filename) (-1);
  Ok (String.eqb ext "fits").

(** [sep.join(pieces)] *)
Fixpoint join (sep : ascii) (pieces : list string) : string :=
  match pieces with
  | [] => EmptyString
  | [w] => w
  | w :: ws => (w ++ String sep (join sep ws))%string
  end.

End Files.

(** ** Sorting the frames by filter (image reduction notebook, cells 13 to 18) *)

Module Reduction.
Import Numpy.

#[local] Instance string_eq_dec : EqDecision string := String.string_dec.

(** What cell 13 keeps of a FITS file, in three lists that it fills in step:
    the file name, the header, of which only the entry FILTER is read, and the
    pixels. *)
Record fits_file := {
  file_name : string;
  file_filter : string;
  file_data : frame
}.

(** The order of Python on strings, character by character. *)
Definition string_le (s t : string) : Prop := String.leb s t = true.

#[local] Instance string_le_dec : RelDecision string_le.
Proof. intros s t. unfold string_le. apply _. Defined.

(** [np.unique(values)]: the different values, sorted. *)
Definition np_unique (values : list string) : list string :=
  merge_sort string_le (remove_dups values).

(** [raw_fits_filters] *)
Definition raw_fits_filters (raw : list fits_file) : list string :=
  np_unique (file_filter <$> raw).

(** The inner loop on the raw frames: the pairs [[name, data]] of the files
    whose FILTER is [bandpass], in the order of the lists. *)
Definition raw_per_bandpass (raw : list fits_file) (bandpass : string)
  : list (string * frame) :=
  (fun f => (file_name f, file_data f))
    <$> filter (fun f => file_filter f = bandpass) raw.

(** The inner loop on the flat frames: every pair holds the whole list
    [flat_filenames], as the source appends it, and the data of one flat. *)
Definition flat_per_bandpass (flats : list fits_file) (bandpass : string)
  : list (list string * frame) :=
  (fun f => (file_name <$> flats, file_data f))
    <$> filter (fun f => file_filter f = bandpass) flats.

(** [raw_fits_dict] after the loop over [raw_fits_filters], with its keys in
    the order of insertion. *)
Definition raw_fits_dict (raw : list fits_file)
  : list (string * list (string * frame)) :=
  (fun bandpass => (bandpass, raw_per_bandpass raw bandpass))
    <$> raw_fits_filters raw.

(** [flat_dict] after the same loop: its keys are the filters of the raw
    frames. *)
Definition flat_dict (raw flats : list fits_file)
  : list (string * list (list string * frame)) :=
  (fun bandpass => (bandpass, flat_per_bandpass flats bandpass))
    <$> raw_fits_filters raw.

End Reduction.

(** ** Invariants used in the statements *)

Module Invariants.
Import Numpy Coords.

(** What every prefix of the lines leaves in the two lists of the reading
    loop: different names, one row for each name, no empty row. *)
Definition built (acc : list string * table) : Prop :=
  NoDup (fst acc) /\ length (snd acc) = length (fst acc) /\
  Forall (fun row => row <> []) (snd acc).

End Invariants.

(** * Properties *)

Import Numpy Coords Tracker Pipeline ClampSpec.

(** ** The error monad *)

Lemma bind_Ok_inv {A B} (m : result A) (f : A -> result B) (b : B) :
  m ≫= f = Ok b -> exists a, m = Ok a /\ f a = Ok b.
Proof. destruct m as [a|e]; simpl; [eauto | discriminate]. Qed.

Lemma bind_raises {A B} (m : result A) (f : A -> result B) :
  raises m -> raises (m ≫= f).
Proof. intros [e ->]. exists e. reflexivity. Qed.

(** ** Clamping (C1, C3) *)

Section ClampFacts.
Context `{Config}.



End ClampFacts.

(** C3, evaluated on a 100 x 100 frame with the default [offset] of 10.
    At (x, y) = (5, 50) the third rule sets [x] to 0, so the column slice is
    [-10:10]: its lower bound is below 0, and numpy reads it as [90:10], a
    window without columns. At the corner (5, 5) only the first rule is applied,
    [x] stays 5 and the column slice is [-5:15]. *)
Theorem window_leaves_frame_at_low_x :
  let data := Examples.const_frame 100 100 0%float in
  @clamp Examples.default_config data (5, 50) = Ok (0, 50)
  /\ @window_bounds Examples.default_config (0, 50) = ((40, 60), (-10, 10))
  /\ ~ inside 100 (-10, 10)
  /\ @window Examples.default_config data (0, 50) = repeat [] 20
  /\ @clamp Examples.default_config data (5, 5) = Ok (5, 10)
  /\ @window_bounds Examples.default_config (5, 10) = ((0, 20), (-5, 15))
  /\ ~ inside 100 (-5, 15).
Proof.
  cbv zeta. repeat split; try (vm_compute; reflexivity);
    unfold inside; simpl; lia.
Qed.

(** ** Reading the coordinate file (C10) *)

Section CoordsFacts.
Context `{Config} `{Extern}.

Lemma split_lacks (sep : ascii) (line : string) :
  lacks sep line -> split sep line = [line].
Proof.
  unfold lacks. induction line as [|c line IH]; simpl; intros Hl.
  - reflexivity.
  - inversion Hl as [|? ? Hc Hrest]; subst.
    destruct (Ascii.eqb_spec c sep) as [->|_]; [contradiction|].
    rewrite (IH Hrest). reflexivity.
Qed.

Lemma split_not_nil (sep : ascii) (s : string) : split sep s <> [].
Proof.
  destruct s as [|c s]; simpl; [discriminate|].
  destruct (Ascii.eqb c sep); [discriminate|].
  destruct (split sep s); discriminate.
Qed.

(** A text that ends with the separator splits into the pieces of the text
    before it, followed by an empty piece. *)
Lemma split_trailing (sep : ascii) (s : string) :
  split sep (s ++ String sep EmptyString) = split sep s ++ [EmptyString].
Proof.
  induction s as [|c s IH]; simpl.
  - rewrite Ascii.eqb_refl. reflexivity.
  - destruct (Ascii.eqb c sep).
    + rewrite IH. reflexivity.
    + rewrite IH. destruct (split sep s) as [|w ws] eqn:Hs.
      * exfalso. exact (split_not_nil _ _ Hs).
      * reflexivity.
Qed.

Lemma parse_line_lacks_colon (line : string) :
  lacks ":" line -> parse_line line = Raise IndexError.
Proof.
  intros Hl. unfold parse_line. rewrite (split_lacks _ _ Hl). reflexivity.
Qed.

Lemma parse_lines_raises (lines : list string) (line : string)
  (acc : list string * table) :
  In line lines -> raises (parse_line line) -> raises (parse_lines lines acc).
Proof.
  revert acc. induction lines as [|l lines IH]; intros acc Hin Hr.
  - destruct Hin.
  - simpl. destruct Hin as [->|Hin].
    + apply bind_raises. exact Hr.
    + destruct (parse_line l) as [[name xy]|e]; simpl.
      * apply IH; assumption.
      * eexists; reflexivity.
Qed.

Lemma parse_lines_all (lines : list string) (acc out : list string * table) :
  parse_lines lines acc = Ok out ->
  Forall (fun line => exists r, parse_line line = Ok r) lines.
Proof.
  revert acc. induction lines as [|l lines IH]; intros acc Hp.
  - constructor.
  - simpl in Hp. destruct (parse_line l) as [[name xy]|e] eqn:Hl; simpl in Hp.
    + constructor; [eauto | eapply IH; eassumption].
    + discriminate.
Qed.

(** C10. Every line of [text.split('\n')] is parsed, the empty ones too: a
    line without [':'] raises IndexError when the split result is indexed, one
    such line among the lines makes the whole reading raise, and so a text
    whose last character is a newline is rejected whatever its other lines
    are, and the run raises whatever the frames are, none of them being
    processed; when the reading succeeds, every line was parsed. *)
Theorem trailing_newline_is_fatal :
  (forall line, lacks ":" line -> parse_line line = Raise IndexError) /\
  (forall lines line acc,
     In line lines -> lacks ":" line -> raises (parse_lines lines acc)) /\
  (forall text, raises (read_coords (text ++ String "010" EmptyString))) /\
  (forall text files,
     raises (pipeline (text ++ String "010" EmptyString) files)) /\
  (forall text out,
     read_coords text = Ok out ->
     Forall (fun line => exists r, parse_line line = Ok r) (split "010" text)).
Proof.
  assert (Hread : forall text,
            raises (read_coords (text ++ String "010" EmptyString))).
  { intros text. unfold read_coords. apply bind_raises.
    rewrite split_trailing.
    apply (parse_lines_raises _ EmptyString).
    - apply in_or_app. right. left. reflexivity.
    - exists IndexError. apply parse_line_lacks_colon. constructor. }
  split; [exact parse_line_lacks_colon|]. split; [|split; [|split]].
  - intros lines line acc Hin Hl. eapply parse_lines_raises; [exact Hin|].
    exists IndexError. apply parse_line_lacks_colon, Hl.
  - exact Hread.
  - intros text files. unfold pipeline. apply bind_raises, Hread.
  - intros text out Hr. unfold read_coords in Hr.
    apply bind_Ok_inv in Hr as (acc & Hp & _).
    eapply parse_lines_all, Hp.
Qed.

End CoordsFacts.

Lemma trailing_newline_is_fatal_witness :
  @parse_line Examples.test_extern "A0620(478, 565)" = Raise IndexError
  /\ raises (@parse_lines Examples.test_extern
               ["A0620:(478, 565)"; ""]%string ([], []))
  /\ Forall (fun line => exists r, @parse_line Examples.test_extern line = Ok r)
       (split "010" "A0620:(478, 565)").
Proof.
  destruct (@trailing_newline_is_fatal Examples.default_config
              Examples.test_extern) as (Hline & Hlines & _ & _ & Hall).
  split; [|split].
  - apply Hline. unfold lacks. simpl. repeat constructor; discriminate.
  - apply (Hlines _ ""%string).
    + simpl. right. left. reflexivity.
    + constructor.
  - apply (Hall _ (["A0620"%string], [[(478, 565)]])). vm_compute. reflexivity.
Defined.

(** ** Division by a zero window sum (C5) *)

Section FloatFacts.

Lemma is_zero_Prim2SF (f : float) :
  is_zero f = true -> exists s, Prim2SF f = S754_zero s.
Proof.
  unfold is_zero. rewrite FloatAxioms.eqb_spec.
  replace (Prim2SF zero) with (S754_zero false) by reflexivity.
  destruct (Prim2SF f) as [s|s| |s m e]; simpl; try discriminate.
  - eauto.
  - destruct s; discriminate.
  - destruct s; discriminate.
Qed.

(** binary64 division by a zero gives NaN or an infinity, whatever the
    dividend. *)
Lemma div_zero_non_finite (x y : float) :
  is_zero y = true -> non_finite (x / y) = true.
Proof.
  intros Hy. apply is_zero_Prim2SF in Hy as [s Hy].
  unfold non_finite. rewrite FloatAxioms.div_spec, Hy.
  destruct (Prim2SF x); reflexivity.
Qed.

Lemma non_finite_add (a b : float) :
  non_finite a = true -> non_finite (a + b) = true.
Proof.
  unfold non_finite. rewrite FloatAxioms.add_spec.
  destruct (Prim2SF a) as [s|s| |s m e]; try discriminate; intros _.
  - destruct (Prim2SF b) as [t|t| |t m e]; try reflexivity.
    destruct s, t; reflexivity.
  - reflexivity.
Qed.

Lemma non_finite_sub (a b : float) :
  non_finite a = true -> non_finite (a - b) = true.
Proof.
  unfold non_finite. rewrite FloatAxioms.sub_spec.
  destruct (Prim2SF a) as [s|s| |s m e]; try discriminate; intros _.
  - destruct (Prim2SF b) as [t|t| |t m e]; try reflexivity.
    destruct s, t; reflexivity.
  - reflexivity.
Qed.

Lemma py_int_non_finite (f : float) :
  non_finite f = true ->
  py_int f = Raise ValueError \/ py_int f = Raise OverflowError.
Proof.
  unfold non_finite, py_int.
  destruct (Prim2SF f); try discriminate; auto.
Qed.

End FloatFacts.

(** ** Writes through the view *)

Section TableFacts.

Lemma set_pos_length (sp : table) (col i : nat) (p : Z * Z) :
  length (set_pos sp col i p) = length sp.
Proof. unfold set_pos. apply length_alter. Qed.

Lemma cell_set_pos_eq (sp : table) (col i : nat) (p q : Z * Z) :
  cell sp i col = Some q -> cell (set_pos sp col i p) i col = Some p.
Proof.
  unfold cell, set_pos. rewrite list_lookup_alter_eq.
  destruct (sp !! i) as [row|]; simpl; [|discriminate].
  intros Hq. apply list_lookup_insert_eq.
  apply lookup_lt_is_Some. eauto.
Qed.

Lemma cell_set_pos_ne (sp : table) (col i : nat) (p : Z * Z) (j k : nat) :
  j <> i \/ k <> col -> cell (set_pos sp col i p) j k = cell sp j k.
Proof.
  unfold cell, set_pos. intros Hne.
  destruct (decide (i = j)) as [->|Hij].
  - rewrite list_lookup_alter_eq.
    destruct (sp !! j) as [row|]; simpl; [|reflexivity].
    apply list_lookup_insert_ne. destruct Hne; congruence.
  - rewrite list_lookup_alter_ne by assumption. reflexivity.
Qed.

Lemma get_pos_Ok (sp : table) (col i : nat) (p : Z * Z) :
  get_pos sp col i = Ok p <-> cell sp i col = Some p.
Proof.
  unfold get_pos. destruct (cell sp i col); split; congruence.
Qed.

Lemma index_0 {A} (l : list A) :
  index l 0 = match l with [] => Raise IndexError | a :: _ => Ok a end.
Proof.
  unfold index. destruct l as [|a l]; [reflexivity|].
  change (0 <? 0) with false. cbv iota.
  replace ((0 <=? 0) && (0 <? Z.of_nat (length (a :: l)))) with true.
  - reflexivity.
  - symmetry. apply andb_true_iff. split; [reflexivity|].
    apply Z.ltb_lt. simpl length. lia.
Qed.

Lemma rounds_set_pos (sp : table) (col i : nat) (p : Z * Z) :
  rounds (set_pos sp col i p) = rounds sp.
Proof.
  unfold rounds, set_pos. rewrite !index_0.
  destruct sp as [|row sp]; [reflexivity|].
  destruct i as [|i]; simpl; [|reflexivity].
  rewrite length_insert. reflexivity.
Qed.

End TableFacts.

(** ** The tracking loop *)

Section TrackerFacts.
Context `{Config} `{Extern}.

Lemma track_loop_step (data : frame) (col i : nat) (todo : list nat)
  (sp : table) (cs : list (float * float)) (ps : list float)
  (out : table * list (float * float) * list float) :
  track_loop data col (i :: todo) sp cs ps = Ok out ->
  exists p p' cen peak,
    cell sp i col = Some p /\
    track_one data p = Ok (p', cen, peak) /\
    track_loop data col todo (set_pos sp col i p') (cs ++ [cen]) (ps ++ [peak])
      = Ok out.
Proof.
  simpl. intros Hl.
  apply bind_Ok_inv in Hl as (p & Hp & Hl).
  apply bind_Ok_inv in Hl as ([[p' cen] peak] & Ht & Hl).
  apply get_pos_Ok in Hp. eauto 10.
Qed.


(** The lists grow by one entry for each object, and the table keeps its
    number of rows. *)
Lemma track_loop_lengths (data : frame) (col : nat) (todo : list nat) :
  forall sp cs ps sp' cs' ps',
    track_loop data col todo sp cs ps = Ok (sp', cs', ps') ->
    length sp' = length sp /\
    length cs' = (length cs + length todo)%nat /\
    length ps' = (length ps + length todo)%nat /\
    rounds sp' = rounds sp.
Proof.
  induction todo as [|i todo IH]; intros sp cs ps sp' cs' ps' Hl.
  - simpl in Hl. inversion Hl; subst. simpl. repeat split; lia.
  - apply track_loop_step in Hl as (p & p' & cen & peak & _ & _ & Hl).
    apply IH in Hl as (Hsp & Hcs & Hps & Hr).
    rewrite set_pos_length in Hsp. rewrite rounds_set_pos in Hr.
    rewrite length_app in Hcs, Hps. simpl in *. repeat split; [lia..|exact Hr].
Qed.

(** The loop writes only to the viewed column, and only to the rows it
    visits. *)
Lemma track_loop_frame (data : frame) (col : nat) (todo : list nat) :
  forall sp cs ps sp' cs' ps',
    track_loop data col todo sp cs ps = Ok (sp', cs', ps') ->
    forall j k, j ∉ todo \/ k <> col -> cell sp' j k = cell sp j k.
Proof.
  induction todo as [|i todo IH]; intros sp cs ps sp' cs' ps' Hl j k Hjk.
  - simpl in Hl. inversion Hl; subst. reflexivity.
  - apply track_loop_step in Hl as (p & p' & cen & peak & _ & _ & Hl).
    rewrite (IH _ _ _ _ _ _ Hl j k).
    + apply cell_set_pos_ne. destruct Hjk as [Hj|Hk]; [left|right; exact Hk].
      intros ->. apply Hj. left.
    + destruct Hjk as [Hj|Hk]; [left|right; exact Hk].
      intros Hin. apply Hj. right. exact Hin.
Qed.


(** The centres are the re-indexed centroids of the windows, in the order of
    the objects. *)
Lemma find_objects_stats_inv (data : frame) (sp : table) (col : nat)
  (sp' : table) (phot_table : list phot_row) (peaks : list float) :
  find_objects_stats data sp col = Ok (sp', phot_table, peaks) ->
  exists centroids,
    track_loop data col (seq 0 (length sp)) sp [] [] = Ok (sp', centroids, peaks)
    /\ phot_table = aperture_photometry data centroids.
Proof.
  unfold find_objects_stats. intros Hf.
  apply bind_Ok_inv in Hf as ([[sp1 cs] ps] & Hl & Hf).
  inversion Hf; subst. eauto.
Qed.

Lemma find_objects_stats_lengths (data : frame) (sp : table) (col : nat)
  (sp' : table) (phot_table : list phot_row) (peaks : list float) :
  find_objects_stats data sp col = Ok (sp', phot_table, peaks) ->
  length sp' = length sp /\ length phot_table = length sp /\
  length peaks = length sp /\ rounds sp' = rounds sp.
Proof.
  intros Hf. apply find_objects_stats_inv in Hf as (cs & Hl & ->).
  apply track_loop_lengths in Hl as (Hsp & Hcs & Hps & Hr).
  unfold aperture_photometry. rewrite length_fmap.
  rewrite length_seq in Hcs, Hps. simpl in *. repeat split; assumption.
Qed.

End TrackerFacts.

(** ** The tracker and the caller's positions (C8) *)

Section TrackerEffects.
Context `{Config} `{Extern}.


End TrackerEffects.



(** ** A window whose sum is zero (C5) *)

Section DegenerateWindow.
Context `{Config} `{Extern}.

Lemma centroid_zero_sum (arr : frame) :
  is_zero (np_sum arr) = true ->
  non_finite (fst (centroid arr)) = true /\
  non_finite (snd (centroid arr)) = true.
Proof.
  intros Hz. unfold centroid.
  destruct (centroid_rows 0 arr (0%float, 0%float)) as [x_sum y_sum]. simpl.
  split; apply div_zero_non_finite, Hz.
Qed.

Lemma track_one_zero_sum (data : frame) (p p' : Z * Z) :
  clamp data p = Ok p' ->
  is_zero (np_sum (window data p')) = true ->
  track_one data p = Raise ValueError \/ track_one data p = Raise OverflowError.
Proof.
  intros Hc Hz. unfold track_one. rewrite Hc. simpl.
  apply centroid_zero_sum in Hz as [_ Hy].
  unfold peak_at, reindex. simpl.
  destruct (py_int_non_finite _
              (non_finite_sub _ (float_of_Z offset)
                 (non_finite_add _ (float_of_Z (snd p')) Hy))) as [-> | ->];
    simpl; auto.
Qed.

Lemma track_loop_raises (data : frame) (col i : nat) (p : Z * Z)
  (todo : list nat) :
  raises (track_one data p) -> i ∈ todo ->
  forall sp cs ps,
    cell sp i col = Some p -> raises (track_loop data col todo sp cs ps).
Proof.
  intros Hr. induction todo as [|j todo IH]; intros Hin sp cs ps Hp.
  - inversion Hin.
  - simpl. destruct (get_pos sp col j) as [q|e] eqn:Hq; simpl;
      [|eexists; reflexivity].
    destruct (track_one data q) as [[[q' cen] peak]|e] eqn:Ht; simpl;
      [|eexists; reflexivity].
    destruct (decide (j = i)) as [->|Hji].
    + apply get_pos_Ok in Hq. rewrite Hp in Hq. inversion Hq; subst q.
      destruct Hr as [e He]. congruence.
    + apply IH.
      * apply elem_of_cons in Hin as [->|Hin]; [congruence | exact Hin].
      * rewrite <- Hp. apply cell_set_pos_ne. left. congruence.
Qed.

(** C5, as the code has it. When the sum of the search window of an object
    is zero, [centroid] does not raise: both coordinates it returns are NaN or
    an infinity. The conversion [int(cen[1])] of the peak lookup then raises
    ValueError or OverflowError, and since nothing catches it the call of
    [find_objects_stats] raises: no value is produced for the object. *)
Theorem zero_window_sum_raises (data : frame) (sp : table) (col i : nat)
  (p p' : Z * Z) :
  cell sp i col = Some p ->
  clamp data p = Ok p' ->
  is_zero (np_sum (window data p')) = true ->
  non_finite (fst (centroid (window data p'))) = true /\
  non_finite (snd (centroid (window data p'))) = true /\
  (track_one data p = Raise ValueError \/
   track_one data p = Raise OverflowError) /\
  raises (find_objects_stats data sp col).
Proof.
  intros Hp Hc Hz.
  pose proof (centroid_zero_sum _ Hz) as [Hx Hy].
  pose proof (track_one_zero_sum _ _ _ Hc Hz) as Ht.
  repeat split; try assumption.
  unfold find_objects_stats. apply bind_raises.
  apply (track_loop_raises data col i p).
  - destruct Ht as [-> | ->]; eexists; reflexivity.
  - apply elem_of_seq. split; [lia|]. simpl.
    unfold cell in Hp. destruct (sp !! i) eqn:Hr; [|discriminate].
    apply lookup_lt_is_Some. eauto.
  - exact Hp.
Qed.

End DegenerateWindow.

(** C5 as stated fails: on a frame of uniform sky, which is zero everywhere
    once the median is subtracted, the window sum is zero and the frame is not
    recorded with a failure value: the tracker and the whole iteration raise
    ValueError. *)
Lemma zero_window_aborts_counterexample :
  let data := @subtract_sky Examples.test_extern
                (Examples.file_of "f1" Examples.ones) in
  data = Examples.const_frame 30 30 0%float
  /\ is_zero (@np_sum Examples.test_extern
                (@window Examples.default_config data (15, 15))) = true
  /\ @find_objects_stats Examples.default_config Examples.test_extern
       data [[(15, 15)]] 0 = Raise ValueError
  /\ @process_frame Examples.default_config Examples.test_extern
       ["A0620"%string] (initial [[(15, 15)]])
       (Examples.file_of "f1" Examples.ones) = Raise ValueError.
Proof. cbv zeta. repeat split; vm_compute; reflexivity. Qed.

Lemma zero_window_sum_raises_witness :
  raises (@find_objects_stats Examples.default_config Examples.test_extern
            (Examples.const_frame 30 30 0%float) [[(15, 15)]] 0).
Proof.
  apply (@zero_window_sum_raises Examples.default_config Examples.test_extern
           (Examples.const_frame 30 30 0%float) [[(15, 15)]] 0%nat 0%nat
           (15, 15) (15, 15)).
  - reflexivity.
  - vm_compute. reflexivity.
  - vm_compute. reflexivity.
Defined.

(** ** One iteration of the loop over the frames *)

Section FrameFacts.
Context `{Config} `{Extern}.

Lemma retrack_inv (data : frame) (sp1 : table) (c idx : nat)
  (pt1 : list phot_row) (pk1 : list float)
  (sp2 : table) (col idx' : nat) (pt2 : list phot_row) (pk2 : list float) :
  retrack data sp1 c idx pt1 pk1 = Ok (sp2, col, idx', pt2, pk2) ->
  (any_negative pt1 = false /\ idx' = idx /\
   sp2 = sp1 /\ col = c /\ pt2 = pt1 /\ pk2 = pk1) \/
  (any_negative pt1 = true /\ idx' = S idx /\
   exists n, rounds sp1 = Ok n /\
     (((S idx < n)%nat /\ col = S idx /\
       find_objects_stats data sp1 (S idx) = Ok (sp2, pt2, pk2)) \/
      ((n <= S idx)%nat /\ sp2 = sp1 /\ col = c /\ pt2 = pt1 /\ pk2 = pk1))).
Proof.
  unfold retrack. destruct (any_negative pt1); intros Hr.
  - right. split; [reflexivity|].
    apply bind_Ok_inv in Hr as (n & Hn & Hr).
    destruct (Nat.ltb_spec (S idx) n) as [Hlt|Hge].
    + apply bind_Ok_inv in Hr as ([[sp' pt'] pk'] & Hf & Hr).
      inversion Hr; subst. split; [reflexivity|].
      exists n. split; [exact Hn|]. left. auto.
    + inversion Hr; subst. split; [reflexivity|].
      exists n. split; [exact Hn|]. right. auto.
  - left. inversion Hr; subst. auto 10.
Qed.

Lemma process_frame_inv (names : list string) (st : state) (file : fits)
  (st' : state) :
  process_frame names st file = Ok st' ->
  exists sp1 pt1 pk1 sp2 pt2 pk2 rows,
    find_objects_stats (subtract_sky file) (starting_positions st)
      (positions st) = Ok (sp1, pt1, pk1) /\
    retrack (subtract_sky file) sp1 (positions st)
      (starting_positions_index st) pt1 pk1
      = Ok (sp2, positions st', starting_positions_index st', pt2, pk2) /\
    complete_rows names file (skybkg file) pt2 pk2 = Ok rows /\
    update_positions sp2 (positions st') 0 pt2 = Ok (starting_positions st') /\
    aperture_table st' = aperture_table st ++ rows.
Proof.
  unfold process_frame. intros Hp.
  apply bind_Ok_inv in Hp as ([[sp1 pt1] pk1] & Hf & Hp).
  apply bind_Ok_inv in Hp as ([[[[sp2 col] idx] pt2] pk2] & Hr & Hp).
  apply bind_Ok_inv in Hp as (rows & Hc & Hp).
  apply bind_Ok_inv in Hp as (sp3 & Hu & Hp).
  inversion Hp; subst. simpl. eauto 15.
Qed.

Lemma complete_rows_inv (names : list string) (file : fits) (sky : float)
  (pt : list phot_row) (pk : list float) (rows : list record) :
  complete_rows names file sky pt pk = Ok rows ->
  length pk = length pt /\ length names = length pt /\
  length rows = length names /\
  rec_name <$> rows = names /\
  Forall (fun r => rec_filename r = filename file) rows /\
  (forall i r, rows !! i = Some r ->
     exists row, pt !! i = Some row /\
       rec_xcenter r = xcenter row /\ rec_ycenter r = ycenter row /\
       rec_aperture_sum r = aperture_sum row /\
       rec_aperture_mag r = aperture_mag (aperture_sum row)).
Proof.
  unfold complete_rows.
  destruct (Nat.eqb_spec (length pk) (length pt)) as [Hpk|]; [|discriminate].
  destruct (Nat.eqb_spec (length names) (length pt)) as [Hn|]; [|discriminate].
  simpl. intros Hr. inversion Hr; subst rows; clear Hr.
  assert (Hz : length (zip pt pk) = length names).
  { rewrite length_zip_with_l_eq; lia. }
  split; [exact Hpk|]. split; [exact Hn|]. split; [|split; [|split]].
  - rewrite length_zip_with_l_eq; lia.
  - revert Hz. generalize (zip pt pk). clear.
    intros l. revert names.
    induction l as [|a l IH]; intros [|n names] Hl; simpl in *;
      try discriminate; [reflexivity|].
    f_equal. apply IH. lia.
  - generalize (zip pt pk). clear. intros l. revert names.
    induction l as [|a l IH]; intros [|n names]; simpl; constructor.
    + reflexivity.
    + apply IH.
  - intros i r Hi. apply lookup_zip_with_Some in Hi as ([row pkv] & name & -> & Hl & _).
    apply lookup_zip_with_Some in Hl as (row' & pkv' & Heq & Hrow & _).
    inversion Heq; subst. exists row'. simpl. auto.
Qed.

(** The end-of-frame loop writes the truncated centres into the viewed
    column, row by row, and nothing else. *)
Lemma update_positions_spec (col : nat) (pt : list phot_row) :
  forall sp i sp',
    update_positions sp col i pt = Ok sp' ->
    length sp' = length sp /\ rounds sp' = rounds sp /\
    (forall j k, k <> col -> cell sp' j k = cell sp j k) /\
    (forall n r, pt !! n = Some r ->
       exists ix iy, py_int (xcenter r) = Ok ix /\ py_int (ycenter r) = Ok iy /\
                     cell sp' (i + n) col = Some (ix, iy)).
Proof.
  induction pt as [|r pt IH]; intros sp i sp' Hu; simpl in Hu.
  - inversion Hu; subst. repeat split; try reflexivity.
    intros n r Hn. destruct n; discriminate.
  - apply bind_Ok_inv in Hu as (ix & Hx & Hu).
    apply bind_Ok_inv in Hu as (iy & Hy & Hu).
    apply bind_Ok_inv in Hu as (q & Hq & Hu).
    apply get_pos_Ok in Hq.
    destruct (IH _ _ _ Hu) as (Hlen & Hr & Hother & Hcells).
    rewrite set_pos_length in Hlen. rewrite rounds_set_pos in Hr.
    split; [exact Hlen|]. split; [exact Hr|]. split.
    + intros j k Hk. rewrite Hother by exact Hk.
      apply cell_set_pos_ne. right. exact Hk.
    + intros [|n] r' Hn; simpl in Hn.
      * inversion Hn; subst r'. exists ix, iy. repeat split; try assumption.
        rewrite Nat.add_0_r.
        assert (Hkeep : forall pt' sp0 m sp1,
                  update_positions sp0 col m pt' = Ok sp1 ->
                  forall j, (j < m)%nat -> cell sp1 j col = cell sp0 j col).
        { clear. induction pt' as [|r pt' IH]; intros sp0 m sp1 Hu j Hj;
            simpl in Hu.
          - inversion Hu; subst. reflexivity.
          - apply bind_Ok_inv in Hu as (ix & _ & Hu).
            apply bind_Ok_inv in Hu as (iy & _ & Hu).
            apply bind_Ok_inv in Hu as (q & _ & Hu).
            rewrite (IH _ _ _ Hu j) by lia.
            apply cell_set_pos_ne. left. lia. }
        rewrite (Hkeep _ _ _ _ Hu i) by lia.
        eapply cell_set_pos_eq, Hq.
      * destruct (Hcells n r' Hn) as (jx & jy & Hjx & Hjy & Hc).
        exists jx, jy. repeat split; try assumption.
        replace (i + S n)%nat with (S i + n)%nat by lia. exact Hc.
Qed.

End FrameFacts.

(** ** Track-loss retry (C2) and the hypothesis index (C4) *)

Section RetryFacts.
Context `{Config} `{Extern}.

Lemma find_objects_stats_frame (data : frame) (sp : table) (col : nat)
  (sp' : table) (phot_table : list phot_row) (peaks : list float) :
  find_objects_stats data sp col = Ok (sp', phot_table, peaks) ->
  forall i k, k <> col -> cell sp' i k = cell sp i k.
Proof.
  intros Hf i k Hk. apply find_objects_stats_inv in Hf as (cs & Hl & _).
  eapply track_loop_frame; [exact Hl | right; exact Hk].
Qed.

(** C2. In an iteration that completes, let [sp1], [pt1], [pk1] be the
    result of the first call of [find_objects_stats]. If no aperture sum of
    [pt1] is negative, the index and the viewed column are unchanged and the
    rows recorded are those of [pt1]. If one is negative, the index is advanced
    by exactly one; when the new index is below the number of rounds,
    [find_objects_stats] is called once more on the column of the new index,
    which still holds the entries it had before the iteration, and the rows
    recorded are those of this second call whatever its sums are; otherwise the
    rows recorded are those of [pt1]. *)
Theorem retry_once_on_negative_sum (names : list string) (st : state)
  (file : fits) (st' : state) :
  process_frame names st file = Ok st' ->
  (positions st <= starting_positions_index st)%nat ->
  let data := subtract_sky file in
  let idx := starting_positions_index st in
  exists sp1 pt1 pk1,
    find_objects_stats data (starting_positions st) (positions st)
      = Ok (sp1, pt1, pk1) /\
    (any_negative pt1 = false ->
       starting_positions_index st' = idx /\
       positions st' = positions st /\
       recorded names file st st' pt1 pk1) /\
    (any_negative pt1 = true ->
       starting_positions_index st' = S idx /\
       exists n, rounds sp1 = Ok n /\
         ((S idx < n)%nat ->
            exists sp2 pt2 pk2,
              find_objects_stats data sp1 (S idx) = Ok (sp2, pt2, pk2) /\
              (forall i, cell sp1 i (S idx)
                         = cell (starting_positions st) i (S idx)) /\
              positions st' = S idx /\
              recorded names file st st' pt2 pk2) /\
         ((n <= S idx)%nat ->
            positions st' = positions st /\
            recorded names file st st' pt1 pk1)).
Proof.
  intros Hp Hview data idx.
  apply process_frame_inv in Hp
    as (sp1 & pt1 & pk1 & sp2 & pt2 & pk2 & rows & Hf & Hr & Hc & Hu & Ht).
  exists sp1, pt1, pk1. split; [exact Hf|].
  apply retrack_inv in Hr
    as [(Hneg & Hidx & -> & Hcol & -> & ->)
       |(Hneg & Hidx & n & Hn & [(Hlt & Hcol & Hf2)
                                |(Hge & -> & Hcol & -> & ->)])].
  - split; [|rewrite Hneg; discriminate].
    intros _. repeat split; try assumption. exists rows. auto.
  - split; [rewrite Hneg; discriminate|]. intros _.
    split; [exact Hidx|]. exists n. split; [exact Hn|]. split; [|lia].
    intros _. exists sp2, pt2, pk2. split; [exact Hf2|]. split; [|split].
    + intros i. eapply find_objects_stats_frame; [exact Hf|]. fold idx. lia.
    + exact Hcol.
    + exists rows. auto.
  - split; [rewrite Hneg; discriminate|]. intros _.
    split; [exact Hidx|]. exists n. split; [exact Hn|]. split; [lia|].
    intros _. split; [exact Hcol|]. exists rows. auto.
Qed.

Lemma process_frame_index (names : list string) (st : state) (file : fits)
  (st' : state) :
  process_frame names st file = Ok st' ->
  starting_positions_index st' =
    if first_pass_negative st file
    then S (starting_positions_index st) else starting_positions_index st.
Proof.
  intros Hp.
  apply process_frame_inv in Hp
    as (sp1 & pt1 & pk1 & sp2 & pt2 & pk2 & rows & Hf & Hr & _).
  unfold first_pass_negative. rewrite Hf.
  apply retrack_inv in Hr as [(-> & -> & _)|(-> & -> & _)]; reflexivity.
Qed.

Lemma process_frames_app (names : list string) (files1 files2 : list fits) :
  forall st,
    process_frames names st (files1 ++ files2)
    = process_frames names st files1 ≫= fun st1 =>
        process_frames names st1 files2.
Proof.
  induction files1 as [|f files1 IH]; intros st; simpl; [reflexivity|].
  destruct (process_frame names st f) as [st1|e]; simpl; [apply IH|reflexivity].
Qed.

Lemma process_frames_index_le (names : list string) (files : list fits) :
  forall st st',
    process_frames names st files = Ok st' ->
    (starting_positions_index st <= starting_positions_index st')%nat.
Proof.
  induction files as [|f files IH]; intros st st' Hp; simpl in Hp.
  - inversion Hp. lia.
  - apply bind_Ok_inv in Hp as (st1 & Hf & Hp).
    apply IH in Hp. apply process_frame_index in Hf.
    destruct (first_pass_negative st f); lia.
Qed.

(** C4. The index is 0 before the first frame; an iteration adds one to it
    exactly when the first photometry of its frame has a negative aperture sum,
    and leaves it as it is otherwise; so along a run the index after any prefix
    of the frames lies between the index at the start and the index at the
    end: it is never decreased and never reset. The state holds one index for
    all the objects. *)
Theorem hypothesis_index_monotone :
  (forall sp, starting_positions_index (initial sp) = 0%nat) /\
  (forall names st file st',
     process_frame names st file = Ok st' ->
     starting_positions_index st' =
       if first_pass_negative st file
       then S (starting_positions_index st)
       else starting_positions_index st) /\
  (forall names st files1 files2 st',
     process_frames names st (files1 ++ files2) = Ok st' ->
     exists st1,
       process_frames names st files1 = Ok st1 /\
       process_frames names st1 files2 = Ok st' /\
       (starting_positions_index st <= starting_positions_index st1)%nat /\
       (starting_positions_index st1 <= starting_positions_index st')%nat).
Proof.
  split; [reflexivity|]. split; [exact process_frame_index|].
  intros names st files1 files2 st' Hp.
  rewrite process_frames_app in Hp.
  apply bind_Ok_inv in Hp as (st1 & H1 & H2).
  exists st1. repeat split; try assumption;
    eapply process_frames_index_le; eassumption.
Qed.

End RetryFacts.

Lemma retry_once_on_negative_sum_witness :
  exists st',
    @process_frame Examples.default_config Examples.test_extern
      ["A0620"%string] (initial [[(10, 19); (19, 10)]])
      (Examples.file_of "f1" Examples.dip_star) = Ok st'
    /\ starting_positions_index st' = 1%nat /\ positions st' = 1%nat.
Proof.
  eexists. split; [vm_compute; reflexivity|].
  assert (Hfirst :
    @find_objects_stats Examples.default_config Examples.test_extern
      (@subtract_sky Examples.test_extern
         (Examples.file_of "f1" Examples.dip_star))
      (starting_positions (initial [[(10, 19); (19, 10)]]))
      (positions (initial [[(10, 19); (19, 10)]]))
    = Ok ([[(10, 19); (19, 10)]],
          [{| xcenter := 3; ycenter := 25; aperture_sum := (-4) |}],
          [(-4)%float]))
    by (vm_compute; reflexivity).
  match goal with
  | |- starting_positions_index ?s = _ /\ _ =>
      destruct (@retry_once_on_negative_sum Examples.default_config
                  Examples.test_extern ["A0620"%string]
                  (initial [[(10, 19); (19, 10)]])
                  (Examples.file_of "f1" Examples.dip_star) s)
        as (sp1 & pt1 & pk1 & Hf & _ & Hneg);
        [vm_compute; reflexivity | simpl; lia |]
  end.
  cbv zeta in Hf. rewrite Hfirst in Hf.
  injection Hf as <- <- <-.
  destruct Hneg as (Hidx & n & Hn & Hlt & _); [reflexivity|].
  injection Hn as <-.
  destruct Hlt as (sp2 & pt2 & pk2 & _ & _ & Hcol & _); [simpl; lia|].
  split; [exact Hidx | exact Hcol].
Defined.

Lemma hypothesis_index_monotone_witness :
  exists st1 st',
    @process_frames Examples.default_config Examples.test_extern
      ["A0620"%string] (initial [[(12, 15)]])
      [Examples.file_of "f1" Examples.dip] = Ok st1
    /\ @process_frames Examples.default_config Examples.test_extern
         ["A0620"%string] st1
         [Examples.file_of "f2" Examples.dip] = Ok st'
    /\ (starting_positions_index st1 <= starting_positions_index st')%nat.
Proof.
  destruct (@hypothesis_index_monotone Examples.default_config
              Examples.test_extern) as (_ & _ & Hrun).
  assert (Hall : exists st',
            @process_frames Examples.default_config Examples.test_extern
              ["A0620"%string] (initial [[(12, 15)]])
              ([Examples.file_of "f1" Examples.dip]
                 ++ [Examples.file_of "f2" Examples.dip]) = Ok st')
    by (eexists; vm_compute; reflexivity).
  destruct Hall as [st' Hall].
  destruct (Hrun _ _ _ _ _ Hall) as (st1 & H1 & H2 & _ & Hle).
  exists st1, st'. auto.
Defined.

(** ** The rows of the output table (C7) *)

Section RecordFacts.
Context `{Config} `{Extern}.

Lemma process_frame_rows (names : list string) (st : state) (file : fits)
  (st' : state) :
  process_frame names st file = Ok st' ->
  length (starting_positions st') = length (starting_positions st) /\
  exists rows,
    aperture_table st' = aperture_table st ++ rows /\
    length rows = length names /\
    length rows = length (starting_positions st) /\
    rec_name <$> rows = names /\
    Forall (fun r => rec_filename r = filename file) rows.
Proof.
  intros Hp.
  apply process_frame_inv in Hp
    as (sp1 & pt1 & pk1 & sp2 & pt2 & pk2 & rows & Hf & Hr & Hc & Hu & Ht).
  apply find_objects_stats_lengths in Hf as (Hsp1 & Hpt1 & _ & _).
  apply complete_rows_inv in Hc as (_ & Hn & Hrows & Hnames & Hfile & _).
  apply update_positions_spec in Hu as (Hsp3 & _).
  assert (Hlen : length sp2 = length (starting_positions st) /\
                 length pt2 = length (starting_positions st)).
  { apply retrack_inv in Hr
      as [(_ & _ & -> & _ & -> & _)
         |(_ & _ & n & _ & [(_ & _ & Hf2)|(_ & -> & _ & -> & _)])];
      [auto | | auto].
    apply find_objects_stats_lengths in Hf2 as (Hsp2 & Hpt2 & _ & _). lia. }
  destruct Hlen as [Hsp2 Hpt2].
  split; [lia|]. exists rows. repeat split; try assumption. lia.
Qed.

(** In a run that completes, the output table is the table at the start
    followed by one group of rows for each frame, in the order of the frames;
    every group has one row for each tracked object, named in the order of
    [names] and carrying the file name of its frame. *)
Lemma process_frames_groups (names : list string) (st : state)
  (files : list fits) (st' : state) :
  process_frames names st files = Ok st' ->
  exists groups : list (list record),
    aperture_table st' = aperture_table st ++ concat groups /\
    Forall2 (fun file g =>
               length g = length names /\
               length g = length (starting_positions st) /\
               rec_name <$> g = names /\
               Forall (fun r => rec_filename r = filename file) g)
            files groups.
Proof.
  revert st. induction files as [|f files IH]; intros st Hp; simpl in Hp.
  - inversion Hp; subst. exists []. simpl. rewrite app_nil_r.
    split; [reflexivity | constructor].
  - apply bind_Ok_inv in Hp as (st1 & Hf & Hp).
    apply process_frame_rows in Hf
      as (Hlen & rows & Ht & Hn & Hsp & Hnames & Hfile).
    destruct (IH _ Hp) as (groups & Ht' & Hall).
    exists (rows :: groups). split.
    + rewrite Ht', Ht. simpl. rewrite app_assoc. reflexivity.
    + constructor; [auto|].
      eapply Forall2_impl; [exact Hall|]. simpl.
      intros file g (? & ? & ? & ?). repeat split; try assumption. lia.
Qed.


(** C7, as the code has it. In a run whose iterations all complete, the
    output table is the table at the start followed by one group of rows for
    each frame, in the order of the frames, every group with exactly one row
    for each tracked object, named in the order of [names]; the sign of the
    aperture sums plays no part, so a frame whose tracking fails is recorded
    like any other. But an iteration that raises is not skipped: the loop
    raises whatever frames follow, and the pipeline, which writes the table
    once after the loop, returns no table, so the rows of the frames already
    processed are lost too. *)
Theorem one_record_per_object_unless_aborted (names : list string) :
  (forall st files st',
     process_frames names st files = Ok st' ->
     exists groups : list (list record),
       aperture_table st' = aperture_table st ++ concat groups /\
       Forall2 (fun file g =>
                  length g = length names /\
                  length g = length (starting_positions st) /\
                  rec_name <$> g = names /\
                  Forall (fun r => rec_filename r = filename file) g)
               files groups) /\
  (forall st files1 file files2 st1,
     process_frames names st files1 = Ok st1 ->
     raises (process_frame names st1 file) ->
     raises (process_frames names st (files1 ++ file :: files2)) /\
     forall text sp,
       read_coords text = Ok (names, sp) -> st = initial sp ->
       raises (pipeline text (files1 ++ file :: files2))).
Proof.
  split; [intros st files st'; apply process_frames_groups|].
  intros st files1 file files2 st1 H1 Hr.
  assert (Hrun : raises (process_frames names st (files1 ++ file :: files2))).
  { rewrite process_frames_app, H1. cbn [mbind result_bind].
    simpl. apply bind_raises, Hr. }
  split; [exact Hrun|].
  intros text sp Hread ->. unfold pipeline. rewrite Hread.
  cbn [mbind result_bind].
  destruct (get_pos sp 0 0); cbn [mbind result_bind]; [|eexists; reflexivity].
  apply bind_raises, Hrun.
Qed.

End RecordFacts.

(** C7 as stated fails. With the default settings, one object whose only
    hypothesis is (10, 19) and twice the same frame, a dark pixel near the
    left edge: the first iteration finds the dark pixel, records one row with
    the negative sum -4 and leaves the position (3, 25); the second clamps [y]
    to 19, keeps [x = 3], gets a window without columns and raises ValueError.
    The loop and the pipeline raise, and the row of the first frame is not in
    any table. *)
Lemma rows_lost_after_tracking_failure_counterexample :
  exists st1 row,
    @process_frames Examples.default_config Examples.test_extern
      ["A0620"%string] (initial [[(10, 19)]])
      [Examples.file_of "f1" Examples.dip_star] = Ok st1
    /\ aperture_table st1 = [row]
    /\ rec_aperture_sum row = (-4)%float
    /\ starting_positions st1 = [[(3, 25)]]
    /\ @process_frames Examples.default_config Examples.test_extern
         ["A0620"%string] (initial [[(10, 19)]])
         [Examples.file_of "f1" Examples.dip_star;
          Examples.file_of "f2" Examples.dip_star] = Raise ValueError
    /\ @pipeline Examples.default_config Examples.test_extern
         "A0620:(10, 19)"
         [Examples.file_of "f1" Examples.dip_star;
          Examples.file_of "f2" Examples.dip_star] = Raise ValueError.
Proof.
  eexists _, _. split; [vm_compute; reflexivity|].
  split; [reflexivity|]. repeat split; vm_compute; reflexivity.
Qed.

Lemma one_record_per_object_unless_aborted_witness :
  (exists st' groups,
     @process_frames Examples.default_config Examples.test_extern
       ["A0620"%string] (initial [[(12, 15)]])
       [Examples.file_of "f1" Examples.dip;
        Examples.file_of "f2" Examples.dip] = Ok st'
     /\ aperture_table st' = concat groups
     /\ length groups = 2%nat)
  /\ raises
       (@process_frames Examples.default_config Examples.test_extern
          ["A0620"%string] (initial [[(10, 19)]])
          ([Examples.file_of "f1" Examples.dip_star]
             ++ Examples.file_of "f2" Examples.dip_star :: [])).
Proof.
  destruct (@one_record_per_object_unless_aborted Examples.default_config
              Examples.test_extern ["A0620"%string]) as [Hdone Habort].
  split.
  - assert (Hall : exists st',
              @process_frames Examples.default_config Examples.test_extern
                ["A0620"%string] (initial [[(12, 15)]])
                [Examples.file_of "f1" Examples.dip;
                 Examples.file_of "f2" Examples.dip] = Ok st')
      by (eexists; vm_compute; reflexivity).
    destruct Hall as [st' Hall].
    destruct (Hdone _ _ _ Hall) as (groups & Ht & Hgroups).
    exists st', groups. split; [exact Hall|]. split; [exact Ht|].
    apply Forall2_length in Hgroups. simpl in Hgroups. lia.
  - assert (Hfirst : exists st1,
              @process_frames Examples.default_config Examples.test_extern
                ["A0620"%string] (initial [[(10, 19)]])
                [Examples.file_of "f1" Examples.dip_star] = Ok st1
              /\ @process_frame Examples.default_config
                   Examples.test_extern ["A0620"%string] st1
                   (Examples.file_of "f2" Examples.dip_star)
                 = Raise ValueError)
      by (eexists; split; [vm_compute; reflexivity|]; vm_compute; reflexivity).
    destruct Hfirst as (st1 & H1 & H2).
    apply (Habort _ _ _ [] st1 H1). rewrite H2. eexists; reflexivity.
Defined.

(** ** The magnitude in binary64 *)

Section MagnitudeFacts.
Context `{Config} `{Extern}.

(** Every row that an iteration records carries the magnitude
    [-2.5 * log10 (aperture_sum / 10.91926955) + 22.40441725] of its own
    aperture sum, computed in binary64 with numpy's [log10]. *)
Lemma recorded_magnitude (names : list string) (st : state) (file : fits)
  (st' : state) :
  process_frame names st file = Ok st' ->
  exists rows,
    aperture_table st' = aperture_table st ++ rows /\
    Forall (fun r =>
              rec_aperture_mag r
              = ((-2.5) * np_log10 (rec_aperture_sum r / 10.91926955)
                 + 22.40441725)%float) rows.
Proof.
  intros Hp.
  apply process_frame_inv in Hp
    as (sp1 & pt1 & pk1 & sp2 & pt2 & pk2 & rows & _ & _ & Hc & _ & Ht).
  exists rows. split; [exact Ht|].
  apply complete_rows_inv in Hc as (_ & _ & _ & _ & _ & Hrows).
  apply Forall_forall. intros r Hr.
  apply list_elem_of_lookup in Hr as [i Hi].
  destruct (Hrows i r Hi) as (row & _ & _ & _ & -> & ->). reflexivity.
Qed.

(** The binary64 map is not injective on positive sums: 1500 and the next
    binary64 value above it give the same quotient by [fluxzero], hence the
    same magnitude whatever [log10] returns. No function of the magnitude
    recovers both sums. *)
Lemma aperture_mag_not_injective :
  aperture_mag 1500 = aperture_mag (next_up 1500) /\
  (1500 <? next_up 1500)%float = true /\ (0 <? 1500)%float = true.
Proof.
  split; [|split; vm_compute; reflexivity].
  unfold aperture_mag.
  replace (next_up 1500 / fluxzero)%float with (1500 / fluxzero)%float
    by (vm_compute; reflexivity).
  reflexivity.
Qed.

End MagnitudeFacts.

(** ** The view into the hypothesis table (C9) *)

Section ViewFacts.
Context `{Config} `{Extern}.

Lemma initial_view_inv (sp : table) : view_inv sp (initial sp).
Proof.
  unfold view_inv, initial. simpl. repeat split; reflexivity.
Qed.

(** The rows recorded for a frame hold the centres whose truncations the
    end-of-frame loop writes into the viewed column. *)
Lemma process_frame_written (names : list string) (st : state) (file : fits)
  (st' : state) :
  process_frame names st file = Ok st' ->
  exists rows,
    aperture_table st' = aperture_table st ++ rows /\
    forall i r, rows !! i = Some r ->
      exists ix iy,
        py_int (rec_xcenter r) = Ok ix /\ py_int (rec_ycenter r) = Ok iy /\
        cell (starting_positions st') i (positions st') = Some (ix, iy).
Proof.
  intros Hp.
  apply process_frame_inv in Hp
    as (sp1 & pt1 & pk1 & sp2 & pt2 & pk2 & rows & _ & _ & Hc & Hu & Ht).
  exists rows. split; [exact Ht|]. intros i r Hi.
  apply complete_rows_inv in Hc as (_ & _ & _ & _ & _ & Hrows).
  destruct (Hrows i r Hi) as (row & Hrow & -> & -> & _).
  apply update_positions_spec in Hu as (_ & _ & _ & Hcells).
  exact (Hcells i row Hrow).
Qed.

Lemma process_frame_view_inv (sp0 : table) (names : list string) (st : state)
  (file : fits) (st' : state) :
  view_inv sp0 st -> process_frame names st file = Ok st' -> view_inv sp0 st'.
Proof.
  intros (Hle & Hrounds & Hactive & Habove) Hp.
  apply process_frame_inv in Hp
    as (sp1 & pt1 & pk1 & sp2 & pt2 & pk2 & rows & Hf & Hr & _ & Hu & _).
  pose proof (find_objects_stats_lengths _ _ _ _ _ _ Hf) as (_ & _ & _ & Hr1).
  pose proof (find_objects_stats_frame _ _ _ _ _ _ Hf) as Hframe1.
  apply update_positions_spec in Hu as (_ & Hr3 & Hframe3 & _).
  apply retrack_inv in Hr
    as [(_ & Hidx & -> & Hcol & _)
       |(_ & Hidx & n & Hn & [(Hlt & Hcol & Hf2)|(Hge & -> & Hcol & _)])];
    unfold view_inv; rewrite Hidx, Hcol.
  - repeat split.
    + exact Hle.
    + congruence.
    + exact Hactive.
    + intros i k Hk. rewrite Hframe3, Hframe1 by lia. apply Habove, Hk.
  - pose proof (find_objects_stats_lengths _ _ _ _ _ _ Hf2) as (_ & _ & _ & Hr2).
    pose proof (find_objects_stats_frame _ _ _ _ _ _ Hf2) as Hframe2.
    repeat split.
    + lia.
    + congruence.
    + intros i k Hk. rewrite Hcol in Hframe3.
      rewrite Hframe3, Hframe2, Hframe1 by lia. apply Habove. lia.
  - repeat split.
    + lia.
    + congruence.
    + intros m Hm Hlt. exfalso.
      rewrite Hr1, Hrounds, Hm in Hn. inversion Hn; subst. lia.
    + intros i k Hk. rewrite Hframe3, Hframe1 by lia. apply Habove, Hk.
Qed.

Lemma process_frames_view_inv (sp0 : table) (names : list string)
  (files : list fits) :
  forall st st',
    view_inv sp0 st -> process_frames names st files = Ok st' ->
    view_inv sp0 st'.
Proof.
  induction files as [|f files IH]; intros st st' Hinv Hp; simpl in Hp.
  - inversion Hp; subst. exact Hinv.
  - apply bind_Ok_inv in Hp as (st1 & Hf & Hp).
    eapply IH; [|exact Hp]. eapply process_frame_view_inv; eassumption.
Qed.

(** C9. [positions] views a column of the table and is no copy. After any
    number of frames from the table [sp] read from the file, one more
    iteration that completes leaves, in the column that [positions] views and
    for every object, the truncations of the centre recorded for this frame;
    that column is the column of the hypothesis index whenever the index is
    below the number of rounds; and the columns above it still hold the
    entries of [sp], so a retry reads the file coordinates of a round only when
    the index reaches that round for the first time. *)
Theorem positions_write_through (names : list string) (sp : table)
  (files : list fits) (st : state) (file : fits) (st' : state) :
  process_frames names (initial sp) files = Ok st ->
  process_frame names st file = Ok st' ->
  (exists rows,
     aperture_table st' = aperture_table st ++ rows /\
     forall i r, rows !! i = Some r ->
       exists ix iy,
         py_int (rec_xcenter r) = Ok ix /\ py_int (rec_ycenter r) = Ok iy /\
         cell (starting_positions st') i (positions st') = Some (ix, iy)) /\
  (forall n, rounds sp = Ok n ->
     (starting_positions_index st' < n)%nat ->
     positions st' = starting_positions_index st') /\
  (positions st' <= starting_positions_index st')%nat /\
  (forall i k, (positions st' < k)%nat ->
     cell (starting_positions st') i k = cell sp i k).
Proof.
  intros Hrun Hp.
  pose proof (process_frames_view_inv sp names files _ _
                (initial_view_inv sp) Hrun) as Hinv.
  pose proof (process_frame_view_inv sp names st file st' Hinv Hp)
    as (Hle & _ & Hactive & Habove).
  split; [exact (process_frame_written _ _ _ _ Hp)|].
  split; [exact Hactive|]. split; [exact Hle | exact Habove].
Qed.

End ViewFacts.

Lemma positions_write_through_witness :
  exists st',
    @process_frame Examples.default_config Examples.test_extern
      ["A0620"%string] (initial [[(14, 12); (0, 0)]])
      (Examples.file_of "f1" Examples.star) = Ok st'
    /\ starting_positions st' = [[(15, 10); (0, 0)]]
    /\ (forall i k, (positions st' < k)%nat ->
          cell (starting_positions st') i k = cell [[(14, 12); (0, 0)]] i k).
Proof.
  eexists. split; [vm_compute; reflexivity|]. split; [reflexivity|].
  match goal with
  | |- forall i k, (positions ?s < k)%nat -> _ =>
      destruct (@positions_write_through Examples.default_config
                  Examples.test_extern ["A0620"%string]
                  [[(14, 12); (0, 0)]] [] (initial [[(14, 12); (0, 0)]])
                  (Examples.file_of "f1" Examples.star) s)
        as (_ & _ & _ & Habove);
        [reflexivity | vm_compute; reflexivity | exact Habove]
  end.
Defined.

(** * Further properties of the notebooks *)

(** ** Splitting and file names *)

Section SplitFacts.
Import Files.

Lemma split_app_sep (sep : ascii) (a b : string) :
  split sep (a ++ String sep b) = split sep a ++ split sep b.
Proof.
  induction a as [|c a IH]; simpl.
  - rewrite Ascii.eqb_refl. reflexivity.
  - destruct (Ascii.eqb c sep).
    + rewrite IH. reflexivity.
    + rewrite IH. destruct (split sep a) as [|w ws] eqn:Hs.
      * exfalso. exact (split_not_nil _ _ Hs).
      * reflexivity.
Qed.

Lemma split_pieces_lack (sep : ascii) (s : string) :
  Forall (lacks sep) (split sep s).
Proof.
  induction s as [|c s IH]; simpl.
  - repeat constructor.
  - destruct (Ascii.eqb_spec c sep) as [->|Hc].
    + constructor; [constructor | exact IH].
    + destruct (split sep s) as [|w ws].
      * repeat constructor. exact Hc.
      * inversion IH; subst. constructor; [|assumption].
        constructor; assumption.
Qed.

(** Joining the pieces of a split with the separator gives the text back. *)
Lemma join_split (sep : ascii) (s : string) : join sep (split sep s) = s.
Proof.
  induction s as [|c s IH]; simpl.
  - reflexivity.
  - destruct (Ascii.eqb_spec c sep) as [->|Hc].
    + destruct (split sep s) as [|w ws] eqn:Hs.
      * exfalso. exact (split_not_nil _ _ Hs).
      * simpl. f_equal. exact IH.
    + destruct (split sep s) as [|w ws] eqn:Hs.
      * exfalso. exact (split_not_nil _ _ Hs).
      * destruct ws as [|w' ws]; simpl in *; congruence.
Qed.

Lemma string_app_assoc (a b c : string) :
  ((a ++ b) ++ c = a ++ (b ++ c))%string.
Proof. induction a as [|x a IH]; simpl; [reflexivity | f_equal; exact IH]. Qed.

Lemma join_snoc (sep : ascii) (ws : list string) (w : string) :
  ws <> [] ->
  join sep (ws ++ [w]) = (join sep ws ++ String sep w)%string.
Proof.
  induction ws as [|v ws IH]; intros Hne; [contradiction|].
  destruct ws as [|v' ws].
  - reflexivity.
  - change (join sep ((v :: v' :: ws) ++ [w]))
      with (v ++ String sep (join sep ((v' :: ws) ++ [w])))%string.
    rewrite IH by discriminate.
    change (join sep (v :: v' :: ws))
      with (v ++ String sep (join sep (v' :: ws)))%string.
    rewrite string_app_assoc. reflexivity.
Qed.

Lemma index_last {A} (l : list A) (a : A) :
  index (l ++ [a]) (-1) = Ok a.
Proof.
  unfold index. rewrite length_app. simpl length.
  change (-1 <? 0) with true. cbv iota.
  replace (-1 + Z.of_nat (length l + 1)) with (Z.of_nat (length l)) by lia.
  replace ((0 <=? Z.of_nat (length l))
           && (Z.of_nat (length l) <? Z.of_nat (length l + 1))) with true.
  - rewrite Nat2Z.id. rewrite lookup_app_r by lia.
    rewrite Nat.sub_diag. reflexivity.
  - symmetry. apply andb_true_iff. split; [apply Z.leb_le | apply Z.ltb_lt]; lia.
Qed.

Lemma split_snoc (sep : ascii) (s : string) :
  exists ws w, split sep s = ws ++ [w].
Proof.
  destruct (split sep s) as [|v vs] eqn:Hs using rev_ind.
  - exfalso. exact (split_not_nil _ _ Hs).
  - eauto.
Qed.

(** X1. [has_fits_file_extension] never raises, and it accepts a name exactly
    when the name is ["fits"] itself or ends with [".fits"]: a file called
    [fits], without any dot, is taken for a frame, and the test distinguishes
    upper and lower case. *)
Theorem has_fits_file_extension_spec (filename : string) :
  exists b,
    has_fits_file_extension filename = Ok b /\
    (b = true <->
     filename = "fits"%string \/
     exists stem, filename = (stem ++ ".fits")%string).
Proof.
  unfold has_fits_file_extension.
  destruct (split_snoc "." filename) as (ws & w & Hs).
  rewrite Hs, index_last. simpl. eexists. split; [reflexivity|].
  pose proof (join_split "." filename) as Hj. rewrite Hs in Hj.
  pose proof (split_pieces_lack "." filename) as Hl. rewrite Hs in Hl.
  apply Forall_app in Hl as [_ Hw]. apply Forall_singleton in Hw.
  split.
  - intros Heq. apply String.eqb_eq in Heq. subst w.
    destruct ws as [|v ws].
    + left. symmetry. exact Hj.
    + right. rewrite join_snoc in Hj by discriminate.
      exists (join "." (v :: ws)). symmetry. exact Hj.
  - intros [->|[stem ->]].
    + destruct ws as [|v ws]; simpl in Hs.
      * inversion Hs. reflexivity.
      * exfalso. vm_compute in Hs. destruct ws; discriminate.
    + change (stem ++ ".fits")%string
        with (stem ++ String "." "fits")%string in Hs.
      rewrite split_app_sep in Hs.
      change (split "." "fits") with ["fits"%string] in Hs.
      apply app_inj_tail in Hs as [_ <-]. reflexivity.
Qed.

End SplitFacts.

(** ** The lines of the coordinate file *)

Section LineFacts.
Context `{Extern}.

Lemma lacks_app (sep : ascii) (a b : string) :
  lacks sep a -> lacks sep b -> lacks sep (a ++ b).
Proof.
  unfold lacks. induction a as [|c a IH]; simpl; intros Ha Hb; [exact Hb|].
  inversion Ha; subst. constructor; [assumption | apply IH; assumption].
Qed.

Lemma drop_last_snoc (s : string) (c : ascii) :
  drop_last (s ++ String c EmptyString) = s.
Proof.
  induction s as [|x s IH]; [reflexivity|].
  change (drop_last (String x s ++ String c EmptyString))
    with (drop_last (String x (s ++ String c EmptyString))).
  destruct s as [|y s]; [reflexivity|].
  change (drop_last (String x (String y s ++ String c EmptyString)))
    with (String x (drop_last (String y s ++ String c EmptyString))).
  rewrite IH. reflexivity.
Qed.

(** X2. A line [name:<c1><x>,<y><c2>] whose name holds no colon and whose
    two fields hold neither a colon nor a comma is read as the name with the
    integer parts of [float(x)] and [float(y)]. The characters [c1] and [c2]
    are dropped without being looked at: nothing checks that they are the
    parentheses of the documented format. *)
Theorem parse_line_format (name sx sy : string) (c1 c2 : ascii)
  (fx fy : float) (x y : Z) :
  lacks ":" name ->
  lacks ":" (String c1 sx) -> lacks "," (String c1 sx) ->
  lacks ":" (sy ++ String c2 EmptyString) ->
  lacks "," (sy ++ String c2 EmptyString) ->
  py_float sx = Ok fx -> py_int fx = Ok x ->
  py_float sy = Ok fy -> py_int fy = Ok y ->
  parse_line (name ++ String ":" (String c1 sx
                ++ String "," (sy ++ String c2 EmptyString)))
  = Ok (name, (x, y)).
Proof.
  intros Hn H1c H1k H2c H2k Hfx Hx Hfy Hy.
  unfold parse_line.
  remember (String c1 sx) as f1 eqn:Hf1.
  remember (sy ++ String c2 EmptyString)%string as f2 eqn:Hf2.
  rewrite split_app_sep, (split_lacks _ _ Hn).
  assert (Hcoord : lacks ":" (f1 ++ String "," f2)).
  { apply lacks_app; [exact H1c|]. constructor; [discriminate | exact H2c]. }
  rewrite (split_lacks _ _ Hcoord).
  change (index ([name] ++ [(f1 ++ String "," f2)%string]) 0)
    with (@Ok string name).
  change (index ([name] ++ [(f1 ++ String "," f2)%string]) 1)
    with (@Ok string (f1 ++ String "," f2)%string).
  cbn [mbind result_bind].
  rewrite split_app_sep, (split_lacks _ _ H1k), (split_lacks _ _ H2k).
  change (index ([f1] ++ [f2]) 0) with (@Ok string f1).
  change (index ([f1] ++ [f2]) 1) with (@Ok string f2).
  cbn [mbind result_bind]. subst f1 f2.
  cbn [drop_first]. rewrite drop_last_snoc.
  rewrite Hfx. cbn [mbind result_bind]. rewrite Hx. cbn [mbind result_bind].
  rewrite Hfy. cbn [mbind result_bind]. rewrite Hy. reflexivity.
Qed.

End LineFacts.

Lemma parse_line_format_witness :
  @parse_line Examples.test_extern "A0620:(478, 565)" = Ok ("A0620"%string, (478, 565))
  /\ @parse_line Examples.test_extern "A0620:[478, 565]" = Ok ("A0620"%string, (478, 565)).
Proof.
  split.
  - apply (@parse_line_format Examples.test_extern "A0620" "478" " 565"
             "(" ")" 478%float 565%float);
      try (unfold lacks; simpl; repeat constructor; discriminate);
      vm_compute; reflexivity.
  - apply (@parse_line_format Examples.test_extern "A0620" "478" " 565"
             "[" "]" 478%float 565%float);
      try (unfold lacks; simpl; repeat constructor; discriminate);
      vm_compute; reflexivity.
Defined.

(** ** The table built from the lines *)

Section TableBuildFacts.
Import Invariants.
Context `{Extern}.

Lemma names_index_None (name : string) (names : list string) :
  names_index name names = None <-> ~ In name names.
Proof.
  induction names as [|n names IH]; simpl.
  - tauto.
  - destruct (String.eqb_spec name n) as [->|Hne].
    + split; [discriminate | intros Hn; exfalso; apply Hn; left; reflexivity].
    + destruct (names_index name names) as [k|]; simpl.
      * split; [discriminate|]. intros Hn. exfalso.
        destruct IH as [_ IH]. 
        assert (Hnone : @None nat = None) by reflexivity.
        enough (Some k = None) by discriminate.
        apply IH. intros Hin. apply Hn. right. exact Hin.
      * split; [|reflexivity]. intros _ [Heq|Hin]; [congruence|].
        destruct IH as [IH _]. exact (IH eq_refl Hin).
Qed.

Lemma names_index_Some (name : string) (names : list string) (k : nat) :
  names_index name names = Some k -> names !! k = Some name.
Proof.
  revert k. induction names as [|n names IH]; intros k; simpl; [discriminate|].
  destruct (String.eqb_spec name n) as [->|Hne].
  - intros Hk. inversion Hk. reflexivity.
  - destruct (names_index name names) as [j|]; simpl; [|discriminate].
    intros Hk. inversion Hk. simpl. apply IH. reflexivity.
Qed.

Lemma names_index_snoc (name : string) (names : list string) :
  names_index name names = None ->
  names_index name (names ++ [name]) = Some (length names).
Proof.
  induction names as [|n names IH]; simpl.
  - intros _. rewrite String.eqb_refl. reflexivity.
  - destruct (String.eqb name n); [discriminate|].
    destruct (names_index name names); simpl; [discriminate|].
    intros _. rewrite IH by reflexivity. reflexivity.
Qed.

(** The number of coordinate pairs that a table holds. *)
Lemma pairs_alter_snoc (sp : table) (k : nat) (xy : Z * Z) :
  (k < length sp)%nat ->
  sum_list_with length (alter (fun row => row ++ [xy]) k sp)
  = S (sum_list_with length sp).
Proof.
  revert k. induction sp as [|row sp IH]; intros k Hk; simpl in Hk; [lia|].
  destruct k as [|k].
  - simpl. rewrite length_app. simpl. lia.
  - change (sum_list_with length (alter (fun r => r ++ [xy]) (S k) (row :: sp)))
      with (length row
            + sum_list_with length (alter (fun r => r ++ [xy]) k sp))%nat.
    change (sum_list_with length (row :: sp))
      with (length row + sum_list_with length sp)%nat.
    rewrite IH by lia. lia.
Qed.

Lemma add_coord_built (acc : list string * table) (name : string)
  (xy : Z * Z) :
  built acc ->
  built (add_coord acc name xy) /\
  sum_list_with length (snd (add_coord acc name xy))
  = S (sum_list_with length (snd acc)).
Proof.
  destruct acc as [names sp]. unfold built, add_coord. simpl.
  intros (Hnd & Hlen & Hne).
  destruct (names_index name names) as [k|] eqn:Hk; simpl.
  - pose proof (names_index_Some _ _ _ Hk) as Hin.
    assert (Hklt : (k < length sp)%nat).
    { rewrite Hlen. apply lookup_lt_is_Some. eauto. }
    split; [split; [exact Hnd|split]|].
    + rewrite length_alter. exact Hlen.
    + apply Forall_alter; [exact Hne|]. intros row _ _. destruct row; discriminate.
    + apply pairs_alter_snoc, Hklt.
  - split; [split; [|split]|].
    + apply NoDup_app. split; [exact Hnd|]. split.
      * intros n Hn Hs. apply list_elem_of_singleton in Hs. subst n.
        apply names_index_None in Hk. apply Hk. apply list_elem_of_In. exact Hn.
      * apply NoDup_singleton.
    + rewrite !length_app. simpl. lia.
    + apply Forall_app. split; [exact Hne|]. repeat constructor. discriminate.
    + rewrite sum_list_with_app. simpl. lia.
Qed.

Lemma parse_lines_built (lines : list string) :
  forall acc out,
    built acc -> parse_lines lines acc = Ok out ->
    built out /\
    sum_list_with length (snd out)
    = (sum_list_with length (snd acc) + length lines)%nat.
Proof.
  induction lines as [|l lines IH]; intros acc out Hb Hp; simpl in Hp.
  - inversion Hp; subst. split; [exact Hb | simpl; lia].
  - apply bind_Ok_inv in Hp as ([name xy] & _ & Hp).
    destruct (add_coord_built acc name xy Hb) as [Hb' Hsum].
    destruct (IH _ _ Hb' Hp) as [Hout Hsum'].
    split; [exact Hout|]. rewrite Hsum', Hsum. simpl. lia.
Qed.

Lemma split_length_pos (sep : ascii) (s : string) :
  (0 < length (split sep s))%nat.
Proof.
  destruct (split sep s) eqn:Hs; [|simpl; lia].
  exfalso. exact (split_not_nil _ _ Hs).
Qed.

Lemma read_coords_inv (text : string) (names : list string) (sp : table) :
  read_coords text = Ok (names, sp) ->
  built (names, sp) /\
  sum_list_with length sp = length (split "010" text) /\
  exists n, Forall (fun row => length row = n) sp.
Proof.
  unfold read_coords. intros Hr.
  apply bind_Ok_inv in Hr as ([names0 sp0] & Hp & Hr).
  apply bind_Ok_inv in Hr as (sp1 & Ha & Hr). inversion Hr; subst; clear Hr.
  assert (Hb0 : built ([], [])).
  { unfold built. simpl. split; [constructor|]. split; [reflexivity|constructor]. }
  destruct (parse_lines_built _ _ _ Hb0 Hp) as [Hb Hsum]. simpl in Hsum.
  unfold np_array in Ha. destruct sp0 as [|row0 sp0].
  - inversion Ha; subst. split; [exact Hb|]. split; [exact Hsum|].
    exists 0%nat. constructor.
  - destruct (forallb _ _) eqn:Hall in Ha; [|discriminate].
    inversion Ha; subst. split; [exact Hb|]. split; [exact Hsum|].
    exists (length row0). apply Forall_forall. intros row Hin.
    rewrite forallb_forall in Hall. apply Nat.eqb_eq, Hall.
    apply list_elem_of_In. exact Hin.
Qed.

(** X3. When the reading of the coordinate file succeeds, the names are
    pairwise different, the table has one row for each name and at least one
    row, and all its rows have one length, which is at least 1: the table is
    the rectangular array that the loop over the frames indexes, and column 0,
    the first view of [positions], exists. *)
Theorem read_coords_shape (text : string) (names : list string) (sp : table) :
  read_coords text = Ok (names, sp) ->
  NoDup names /\ length sp = length names /\ sp <> [] /\
  exists n, (0 < n)%nat /\ Forall (fun row => length row = n) sp /\
            rounds sp = Ok n.
Proof.
  intros Hr. apply read_coords_inv in Hr as ((Hnd & Hlen & Hne) & Hsum & n & Hn).
  simpl in *. pose proof (split_length_pos "010" text) as Hpos.
  destruct sp as [|row0 sp]; [simpl in Hsum; lia|].
  split; [exact Hnd|]. split; [exact Hlen|]. split; [discriminate|].
  exists n. inversion Hn; subst. inversion Hne; subst.
  split; [destruct row0; [contradiction | simpl; lia]|].
  split; [constructor; [reflexivity | assumption]|].
  unfold rounds. rewrite index_0. reflexivity.
Qed.

(** X4. The number of lines of the file is the number of objects times the
    number of rounds: a reading that succeeds has used every line of
    [text.split('\n')] for one entry of the table. *)
Theorem read_coords_line_count (text : string) (names : list string)
  (sp : table) (n : nat) :
  read_coords text = Ok (names, sp) -> rounds sp = Ok n ->
  length (split "010" text) = (length names * n)%nat.
Proof.
  intros Hr Hn. apply read_coords_inv in Hr as ((_ & Hlen & _) & Hsum & m & Hm).
  simpl in *. rewrite <- Hsum, <- Hlen.
  assert (Hmn : sp <> [] -> m = n).
  { destruct sp as [|row0 sp]; [contradiction|]. intros _.
    unfold rounds in Hn. rewrite index_0 in Hn. inversion Hn; subst.
    inversion Hm; subst. reflexivity. }
  destruct sp as [|row0 sp]; [reflexivity|].
  rewrite <- (Hmn ltac:(discriminate)). clear Hmn Hn Hlen Hsum.
  induction Hm as [|row rows Hrow _ IH]; simpl; [reflexivity|].
  rewrite IH, Hrow. reflexivity.
Qed.

(** X5. Entering a coordinate pair and looking the name up: after the [if
    name in names] statement the name is in the list, at the place it had
    before or at the end when it is new, and the row of that place is its row
    of before (empty for a new name) followed by the pair; no other row
    changes. So the rounds of an object are its lines in the order of the
    file. *)
Theorem add_coord_lookup (names : list string) (sp : table) (name : string)
  (xy : Z * Z) :
  length sp = length names ->
  exists k row,
    names_index name (fst (add_coord (names, sp) name xy)) = Some k /\
    snd (add_coord (names, sp) name xy) !! k = Some (row ++ [xy]) /\
    (names_index name names = Some k /\ sp !! k = Some row \/
     names_index name names = None /\ k = length names /\ row = []) /\
    (forall j, j <> k -> snd (add_coord (names, sp) name xy) !! j = sp !! j).
Proof.
  intros Hlen. unfold add_coord.
  destruct (names_index name names) as [k|] eqn:Hk; simpl.
  - pose proof (names_index_Some _ _ _ Hk) as Hin.
    assert (Hrow : is_Some (sp !! k)).
    { apply lookup_lt_is_Some. rewrite Hlen. apply lookup_lt_is_Some. eauto. }
    destruct Hrow as [row Hrow]. exists k, row.
    split; [exact Hk|]. split; [|split].
    + rewrite list_lookup_alter_eq, Hrow. reflexivity.
    + left. auto.
    + intros j Hj. apply list_lookup_alter_ne. congruence.
  - exists (length names), []. split; [apply names_index_snoc, Hk|].
    split; [|split].
    + rewrite lookup_app_r by lia. rewrite Hlen, Nat.sub_diag. reflexivity.
    + right. auto.
    + intros j Hj. destruct (decide (j < length sp)%nat) as [Hlt|Hge].
      * apply lookup_app_l. exact Hlt.
      * rewrite lookup_ge_None_2 by (rewrite length_app; simpl; lia).
        symmetry. apply lookup_ge_None_2. lia.
Qed.

End TableBuildFacts.

Lemma read_coords_shape_witness :
  exists names sp,
    @read_coords Examples.test_extern
      ("A0620:(478, 565)" ++ String "010" "compstar1:(385, 535)")
    = Ok (names, sp)
    /\ NoDup names /\ length sp = length names /\ rounds sp = Ok 1%nat.
Proof.
  eexists _, _. split; [vm_compute; reflexivity|].
  destruct (@read_coords_shape Examples.test_extern
              ("A0620:(478, 565)" ++ String "010" "compstar1:(385, 535)")
              ["A0620"; "compstar1"]%string [[(478, 565)]; [(385, 535)]])
    as (Hnd & Hlen & _ & n & _ & _ & Hn); [vm_compute; reflexivity|].
  split; [exact Hnd|]. split; [exact Hlen | reflexivity].
Defined.

Lemma read_coords_line_count_witness :
  length (split "010"
            ("A0620:(478, 565)" ++ String "010" "A0620:(498, 585)"))
  = (length ["A0620"%string] * 2)%nat.
Proof.
  apply (@read_coords_line_count Examples.test_extern _ _
           [[(478, 565); (498, 585)]]); vm_compute; reflexivity.
Defined.

Lemma add_coord_lookup_witness :
  exists k row,
    names_index "A0620" (fst (add_coord (["A0620"%string], [[(478, 565)]])
                                "A0620" (498, 585))) = Some k
    /\ snd (add_coord (["A0620"%string], [[(478, 565)]]) "A0620" (498, 585))
         !! k = Some (row ++ [(498, 585)]).
Proof.
  destruct (add_coord_lookup ["A0620"%string] [[(478, 565)]] "A0620" (498, 585))
    as (k & row & Hk & Hrow & _); [reflexivity|].
  exists k, row. split; assumption.
Defined.

(** ** The position after clamping and its window *)

Section WindowFacts.
Context `{Config}.


Lemma slice_inside {A} (lo hi : Z) (l : list A) :
  0 <= lo -> lo <= hi -> hi <= Z.of_nat (length l) ->
  slice lo hi l = take (Z.to_nat (hi - lo)) (drop (Z.to_nat lo) l).
Proof.
  intros Hlo Hle Hhi. unfold slice, slice_bound.
  destruct (Z.ltb_spec lo 0); [lia|].
  destruct (Z.ltb_spec hi 0); [lia|].
  rewrite (Z.min_l hi), (Z.min_l lo) by lia. reflexivity.
Qed.

Lemma slice_subseteq {A} (lo hi : Z) (l : list A) (a : A) :
  a ∈ slice lo hi l -> a ∈ l.
Proof.
  unfold slice. intros Hin.
  apply (subseteq_drop (Z.to_nat (slice_bound (Z.of_nat (length l)) lo)) l).
  eapply subseteq_take, Hin.
Qed.

Lemma slice_inside_lookup {A} (lo hi : Z) (l : list A) (i : nat) :
  0 <= lo -> hi <= Z.of_nat (length l) -> Z.of_nat i < hi - lo ->
  slice lo hi l !! i = l !! Z.to_nat (lo + Z.of_nat i).
Proof.
  intros Hlo Hhi Hi. rewrite slice_inside by lia.
  rewrite lookup_take_lt by lia. rewrite lookup_drop. f_equal. lia.
Qed.

Lemma slice_inside_length {A} (lo hi : Z) (l : list A) :
  0 <= lo -> lo <= hi -> hi <= Z.of_nat (length l) ->
  length (slice lo hi l) = Z.to_nat (hi - lo).
Proof.
  intros Hlo Hle Hhi. rewrite slice_inside by assumption.
  rewrite length_take, length_drop. lia.
Qed.

(** X7. When both slices of a position lie inside a frame of [w] columns,
    the search window is the block of [2 * offset] rows and [2 * offset]
    columns that starts at row [y - offset] and column [x - offset]: its cell
    [(i, j)] is the pixel [(y - offset + i, x - offset + j)] of the frame. *)
Theorem window_is_block (data : frame) (w : nat) (x y : Z) :
  0 <= offset ->
  Forall (fun row => length row = w) data ->
  inside (height data) (fst (window_bounds (x, y))) ->
  inside (Z.of_nat w) (snd (window_bounds (x, y))) ->
  length (window data (x, y)) = Z.to_nat (2 * offset) /\
  Forall (fun row => length row = Z.to_nat (2 * offset)) (window data (x, y)) /\
  (forall i j : nat,
     Z.of_nat i < 2 * offset -> Z.of_nat j < 2 * offset ->
     window data (x, y) !! i ≫= (.!! j)
     = data !! Z.to_nat (y - offset + Z.of_nat i)
         ≫= (.!! Z.to_nat (x - offset + Z.of_nat j))).
Proof.
  unfold inside, window, window_bounds, height, slice2. simpl.
  intros Ho Hrect [Hy0 Hy1] [Hx0 Hx1].
  assert (Hrows : forall row, row ∈ slice (y - offset) (y + offset) data ->
                              length row = w).
  { intros row Hin. apply slice_subseteq in Hin.
    rewrite Forall_forall in Hrect. apply Hrect, Hin. }
  split; [|split].
  - rewrite length_fmap, slice_inside_length by lia. f_equal. lia.
  - apply Forall_fmap, Forall_forall. intros row Hin. simpl.
    rewrite slice_inside_length by (rewrite ?(Hrows row Hin); lia).
    f_equal. lia.
  - intros i j Hi Hj. rewrite list_lookup_fmap.
    rewrite slice_inside_lookup by lia.
    destruct (data !! Z.to_nat (y - offset + Z.of_nat i)) as [row|] eqn:Hrow;
      simpl; [|reflexivity].
    apply slice_inside_lookup; [lia| |lia].
    rewrite Forall_forall in Hrect.
    rewrite (Hrect row) by (eapply list_elem_of_lookup_2, Hrow).
    lia.
Qed.

End WindowFacts.


Lemma window_is_block_witness :
  length (@window Examples.default_config Examples.ones (15, 15)) = 20%nat.
Proof.
  apply (@window_is_block Examples.default_config Examples.ones 30 15 15).
  - vm_compute. discriminate.
  - repeat constructor.
  - split; vm_compute; discriminate.
  - split; vm_compute; discriminate.
Defined.

(** ** A position near the left edge *)

Section LeftEdge.
Context `{Config} `{Extern}.








End LeftEdge.


(** ** The photometry of a frame, object by object *)

Section ObjectOrder.
Context `{Config} `{Extern}.

Lemma track_loop_results (data : frame) (col : nat) (todo : list nat) :
  NoDup todo ->
  forall sp cs ps sp' cs' ps',
    track_loop data col todo sp cs ps = Ok (sp', cs', ps') ->
    exists cs2 ps2,
      cs' = cs ++ cs2 /\ ps' = ps ++ ps2 /\
      forall n i, todo !! n = Some i ->
        exists p p' cen peak,
          cell sp i col = Some p /\
          track_one data p = Ok (p', cen, peak) /\
          cs2 !! n = Some cen /\ ps2 !! n = Some peak /\
          cell sp' i col = Some p'.
Proof.
  induction 1 as [|i todo Hni Hnd IH]; intros sp cs ps sp' cs' ps' Hl.
  - simpl in Hl. inversion Hl; subst. exists [], [].
    rewrite !app_nil_r. repeat split. intros n i Hn. destruct n; discriminate.
  - apply track_loop_step in Hl as (p & p' & cen & peak & Hp & Ht & Hl).
    destruct (IH _ _ _ _ _ _ Hl) as (cs2 & ps2 & -> & -> & Hrest).
    exists (cen :: cs2), (peak :: ps2).
    rewrite <- !app_assoc. simpl. repeat split.
    intros [|n] j Hn; simpl in Hn.
    + inversion Hn; subst j. exists p, p', cen, peak.
      repeat split; try assumption.
      rewrite (track_loop_frame _ _ _ _ _ _ _ _ _ Hl i col) by (left; exact Hni).
      eapply cell_set_pos_eq, Hp.
    + destruct (Hrest n j Hn) as (q & q' & cen' & peak' & Hq & Htq & Hc & Hpk & Hq').
      exists q, q', cen', peak'. repeat split; try assumption.
      rewrite <- Hq. symmetry. apply cell_set_pos_ne. left.
      intros ->. apply Hni. eapply list_elem_of_lookup_2, Hn.
Qed.

(** X9. The rows and the peaks that [find_objects_stats] returns are in
    the order of the objects: row [i] and peak [i] are the centre, the aperture
    sum at that centre and the peak that one turn of the loop computes from the
    position of object [i] alone, and that position is what the table holds for
    the object afterwards, clamped. *)
Theorem find_objects_stats_by_object (data : frame) (sp : table) (col : nat)
  (sp' : table) (phot_table : list phot_row) (peaks : list float) (i : nat) :
  find_objects_stats data sp col = Ok (sp', phot_table, peaks) ->
  (i < length sp)%nat ->
  exists p p' cen peak,
    cell sp i col = Some p /\
    track_one data p = Ok (p', cen, peak) /\
    phot_table !! i
      = Some {| xcenter := fst cen; ycenter := snd cen;
                aperture_sum := aperture_sum_at radius data cen |} /\
    peaks !! i = Some peak /\
    cell sp' i col = Some p'.
Proof.
  intros Hf Hi. apply find_objects_stats_inv in Hf as (cs & Hl & ->).
  apply (track_loop_results _ _ _ (NoDup_seq 0 (length sp))) in Hl
    as (cs2 & ps2 & -> & -> & Hall).
  destruct (Hall i i) as (p & p' & cen & peak & Hp & Ht & Hc & Hpk & Hp').
  { apply lookup_seq. split; [reflexivity | exact Hi]. }
  exists p, p', cen, peak. repeat split; try assumption.
  unfold aperture_photometry. simpl. rewrite list_lookup_fmap, Hc. reflexivity.
Qed.



End ObjectOrder.


Lemma find_objects_stats_by_object_witness :
  exists p p' cen peak,
    cell [[(15, 5)]] 0 0 = Some p /\
    @track_one Examples.default_config Examples.test_extern Examples.star p
      = Ok (p', cen, peak).
Proof.
  destruct (@find_objects_stats_by_object Examples.default_config
              Examples.test_extern Examples.star [[(15, 5)]] 0
              [[(15, 10)]]
              [{| xcenter := 15; ycenter := 10; aperture_sum := 9 |}]
              [9%float] 0)
    as (p & p' & cen & peak & Hp & Ht & _);
    [vm_compute; reflexivity | simpl; lia |].
  exists p, p', cen, peak. split; assumption.
Defined.

(** ** Sums that are not negative *)

Section NotNegative.
Context `{Config} `{Extern}.

Lemma nan_not_negative (f : float) :
  is_nan f = true -> (f <? 0)%float = false.
Proof.
  unfold is_nan. rewrite FloatAxioms.eqb_spec, FloatAxioms.ltb_spec.
  destruct (Prim2SF f) as [s|s| |s m e]; simpl; try discriminate; auto.
  - destruct s; discriminate.
  - unfold SFeqb, SFcompare. rewrite Z.compare_refl.
    destruct s; rewrite Pos.compare_cont_refl; discriminate.
Qed.

Lemma nonneg_not_negative (f : float) :
  (0 <=? f)%float = true -> (f <? 0)%float = false.
Proof.
  rewrite FloatAxioms.leb_spec, FloatAxioms.ltb_spec.
  replace (Prim2SF 0) with (S754_zero false) by reflexivity.
  destruct (Prim2SF f) as [s|s| |s m e]; simpl; try discriminate; auto;
    destruct s; try discriminate; reflexivity.
Qed.

(** X10. An aperture sum that is NaN, or that is zero or positive, is not a
    tracking failure: when every sum of the first photometry of a frame is such
    a value, the iteration does not advance the hypothesis index and does not
    move the view. *)
Theorem nan_sum_is_no_failure (names : list string) (st : state)
  (file : fits) (st' : state) (sp1 : table) (pt1 : list phot_row)
  (pk1 : list float) :
  process_frame names st file = Ok st' ->
  find_objects_stats (subtract_sky file) (starting_positions st)
    (positions st) = Ok (sp1, pt1, pk1) ->
  Forall (fun r => is_nan (aperture_sum r) = true \/
                   (0 <=? aperture_sum r)%float = true) pt1 ->
  any_negative pt1 = false /\
  starting_positions_index st' = starting_positions_index st /\
  positions st' = positions st.
Proof.
  intros Hp Hf Hall.
  assert (Hneg : any_negative pt1 = false).
  { clear Hf Hp. unfold any_negative.
    induction Hall as [|r pt [Hr|Hr] _ IH]; simpl.
    - reflexivity.
    - rewrite (nan_not_negative _ Hr). exact IH.
    - rewrite (nonneg_not_negative _ Hr). exact IH. }
  split; [exact Hneg|].
  apply process_frame_inv in Hp
    as (sp1' & pt1' & pk1' & sp2 & pt2 & pk2 & rows & Hf' & Hr & _).
  rewrite Hf in Hf'. inversion Hf'; subst sp1' pt1' pk1'.
  apply retrack_inv in Hr as [(_ & -> & _ & -> & _)|(Hyes & _)].
  - split; reflexivity.
  - congruence.
Qed.

End NotNegative.

Lemma nan_sum_is_no_failure_witness :
  exists st',
    @process_frame Examples.default_config Examples.test_extern
      ["A0620"%string] (initial [[(14, 12)]])
      (Examples.file_of "f1" Examples.star) = Ok st'
    /\ starting_positions_index st' = 0%nat.
Proof.
  eexists. split; [vm_compute; reflexivity|].
  match goal with
  | |- starting_positions_index ?s = _ =>
      destruct (@nan_sum_is_no_failure Examples.default_config
                  Examples.test_extern ["A0620"%string]
                  (initial [[(14, 12)]])
                  (Examples.file_of "f1" Examples.star) s
                  [[(14, 12)]]
                  [{| xcenter := 15; ycenter := 10; aperture_sum := 9 |}]
                  [9%float])
        as (_ & Hidx & _);
        [vm_compute; reflexivity | vm_compute; reflexivity
        | repeat constructor; right; reflexivity | exact Hidx]
  end.
Defined.

(** ** The output table of a whole run *)

Section OutputFacts.
Context `{Config} `{Extern}.

Lemma constant_column {A B} (f : A -> B) (b : B) (l : list A) :
  Forall (fun a => f a = b) l -> f <$> l = replicate (length l) b.
Proof.
  induction 1 as [|a l Ha _ IH]; [reflexivity|].
  rewrite fmap_cons, Ha, IH. reflexivity.
Qed.

Lemma process_frames_columns (names : list string) (files : list fits) :
  forall st st',
    process_frames names st files = Ok st' ->
    rec_name <$> aperture_table st'
    = (rec_name <$> aperture_table st) ++ concat ((fun _ => names) <$> files)
    /\ rec_filename <$> aperture_table st'
       = (rec_filename <$> aperture_table st)
         ++ concat ((fun f => replicate (length names) (filename f)) <$> files).
Proof.
  induction files as [|f files IH]; intros st st' Hp; simpl in Hp.
  - inversion Hp; subst. simpl. rewrite !app_nil_r. split; reflexivity.
  - apply bind_Ok_inv in Hp as (st1 & Hf & Hp).
    apply process_frame_rows in Hf as (_ & rows & Ht & Hn & _ & Hnames & Hfile).
    destruct (IH _ _ Hp) as [IHn IHf]. rewrite IHn, IHf, Ht.
    rewrite !fmap_app, Hnames. simpl.
    rewrite (constant_column rec_filename (filename f) rows Hfile), Hn.
    rewrite <- !app_assoc. split; reflexivity.
Qed.

(** X11. When the whole pipeline completes on a coordinate text and a list of
    frames, the output table has the number of frames times the number of
    names rows; its name column is the list of names repeated once for each
    frame, and its file-name column is the name of each frame repeated once for
    each object, in the order in which the frames were given. *)
Theorem pipeline_table_layout (text : string) (files : list fits)
  (tbl : list record) :
  pipeline text files = Ok tbl ->
  exists names sp,
    read_coords text = Ok (names, sp) /\
    length tbl = (length files * length names)%nat /\
    rec_name <$> tbl = concat ((fun _ => names) <$> files) /\
    rec_filename <$> tbl
    = concat ((fun f => replicate (length names) (filename f)) <$> files).
Proof.
  unfold pipeline. intros Hp.
  apply bind_Ok_inv in Hp as ([names sp] & Hr & Hp).
  apply bind_Ok_inv in Hp as (p0 & _ & Hp).
  apply bind_Ok_inv in Hp as (st & Hrun & Hp). inversion Hp; subst tbl.
  exists names, sp. split; [exact Hr|].
  apply process_frames_columns in Hrun as [Hn Hf]. simpl in Hn, Hf.
  split; [|split; assumption].
  rewrite <- (length_fmap rec_name), Hn. clear.
  induction files as [|f files IH]; [reflexivity|].
  rewrite fmap_cons. cbn [concat]. rewrite length_app, IH. reflexivity.
Qed.

End OutputFacts.

Lemma pipeline_table_layout_witness :
  exists tbl,
    @pipeline Examples.default_config Examples.test_extern
      "A0620:(14, 12)"
      [Examples.file_of "f1" Examples.star;
       Examples.file_of "f2" Examples.star] = Ok tbl
    /\ length tbl = 2%nat
    /\ rec_filename <$> tbl = ["f1"; "f2"]%string.
Proof.
  assert (Hrun : exists tbl,
            @pipeline Examples.default_config Examples.test_extern
              "A0620:(14, 12)"
              [Examples.file_of "f1" Examples.star;
               Examples.file_of "f2" Examples.star] = Ok tbl)
    by (eexists; vm_compute; reflexivity).
  destruct Hrun as [tbl Hrun]. exists tbl. split; [exact Hrun|].
  destruct (@pipeline_table_layout Examples.default_config
              Examples.test_extern _ _ _ Hrun)
    as (names & sp & Hread & Hlen & _ & Hfiles).
  vm_compute in Hread. injection Hread as <- <-.
  split; [exact Hlen | exact Hfiles].
Defined.

(** ** The shape of the hypothesis table and the view *)

Section ShapeFacts.
Context `{Config} `{Extern}.

Lemma set_pos_row_lengths (sp : table) (col i : nat) (p : Z * Z) :
  length <$> set_pos sp col i p = length <$> sp.
Proof.
  unfold set_pos. apply list_eq. intros j.
  rewrite !list_lookup_fmap. destruct (decide (i = j)) as [->|Hij].
  - rewrite list_lookup_alter_eq. destruct (sp !! j); simpl; [|reflexivity].
    rewrite length_insert. reflexivity.
  - rewrite list_lookup_alter_ne by assumption. reflexivity.
Qed.

Lemma track_loop_row_lengths (data : frame) (col : nat) (todo : list nat) :
  forall sp cs ps sp' cs' ps',
    track_loop data col todo sp cs ps = Ok (sp', cs', ps') ->
    length <$> sp' = length <$> sp.
Proof.
  induction todo as [|i todo IH]; intros sp cs ps sp' cs' ps' Hl.
  - simpl in Hl. inversion Hl; subst. reflexivity.
  - apply track_loop_step in Hl as (p & p' & cen & peak & _ & _ & Hl).
    rewrite (IH _ _ _ _ _ _ Hl). apply set_pos_row_lengths.
Qed.

Lemma find_objects_stats_row_lengths (data : frame) (sp : table) (col : nat)
  (sp' : table) (phot_table : list phot_row) (peaks : list float) :
  find_objects_stats data sp col = Ok (sp', phot_table, peaks) ->
  length <$> sp' = length <$> sp.
Proof.
  intros Hf. apply find_objects_stats_inv in Hf as (cs & Hl & _).
  eapply track_loop_row_lengths, Hl.
Qed.

Lemma update_positions_row_lengths (col : nat) (pt : list phot_row) :
  forall sp i sp',
    update_positions sp col i pt = Ok sp' -> length <$> sp' = length <$> sp.
Proof.
  induction pt as [|r pt IH]; intros sp i sp' Hu; simpl in Hu.
  - inversion Hu; subst. reflexivity.
  - apply bind_Ok_inv in Hu as (ix & _ & Hu).
    apply bind_Ok_inv in Hu as (iy & _ & Hu).
    apply bind_Ok_inv in Hu as (q & _ & Hu).
    rewrite (IH _ _ _ Hu). apply set_pos_row_lengths.
Qed.

Lemma process_frame_shape (names : list string) (st : state) (file : fits)
  (st' : state) :
  process_frame names st file = Ok st' ->
  length <$> starting_positions st' = length <$> starting_positions st /\
  rounds (starting_positions st') = rounds (starting_positions st) /\
  (forall n, rounds (starting_positions st) = Ok n ->
     (positions st < n)%nat -> (positions st' < n)%nat).
Proof.
  intros Hp.
  apply process_frame_inv in Hp
    as (sp1 & pt1 & pk1 & sp2 & pt2 & pk2 & rows & Hf & Hr & _ & Hu & _).
  pose proof (find_objects_stats_row_lengths _ _ _ _ _ _ Hf) as Hs1.
  pose proof (find_objects_stats_lengths _ _ _ _ _ _ Hf) as (_ & _ & _ & Hr1).
  pose proof (update_positions_row_lengths _ _ _ _ _ Hu) as Hs3.
  apply update_positions_spec in Hu as (_ & Hr3 & _).
  apply retrack_inv in Hr
    as [(_ & _ & -> & -> & _)
       |(_ & _ & n & Hn & [(Hlt & -> & Hf2)|(_ & -> & -> & _)])].
  - split; [congruence|]. split; [congruence | auto].
  - pose proof (find_objects_stats_row_lengths _ _ _ _ _ _ Hf2) as Hs2.
    pose proof (find_objects_stats_lengths _ _ _ _ _ _ Hf2) as (_ & _ & _ & Hr2).
    split; [congruence|]. split; [congruence|].
    intros m Hm _. rewrite Hr1, Hm in Hn. inversion Hn; subst. exact Hlt.
  - split; [congruence|]. split; [congruence | auto].
Qed.

(** X12. A run that completes keeps the shape of the hypothesis table: the
    number of objects and the number of entries of every row are those of the
    start, whatever was written into the entries; and the column that
    [positions] views stays a column of the table, also when the hypothesis
    index has grown beyond the number of rounds. *)
Theorem run_keeps_table_shape (names : list string) (files : list fits) :
  forall st st',
    process_frames names st files = Ok st' ->
    length <$> starting_positions st' = length <$> starting_positions st /\
    rounds (starting_positions st') = rounds (starting_positions st) /\
    (forall n, rounds (starting_positions st) = Ok n ->
       (positions st < n)%nat -> (positions st' < n)%nat).
Proof.
  induction files as [|f files IH]; intros st st' Hp; simpl in Hp.
  - inversion Hp; subst. auto.
  - apply bind_Ok_inv in Hp as (st1 & Hf & Hp).
    apply process_frame_shape in Hf as (Hs & Hr & Hv).
    destruct (IH _ _ Hp) as (Hs' & Hr' & Hv').
    split; [congruence|]. split; [congruence|].
    intros n Hn Hlt. apply Hv'; [congruence | apply Hv; assumption].
Qed.

(** X13. Once the index has reached the last round, that is when the index
    plus one is not below the number of rounds, no later frame is tracked a
    second time: an iteration that completes records the rows of its first
    photometry and leaves the view on its column, and so does every run from
    such a state. *)
Theorem no_retry_after_last_round (names : list string) (n : nat) :
  (forall st file st',
     rounds (starting_positions st) = Ok n ->
     (n <= S (starting_positions_index st))%nat ->
     process_frame names st file = Ok st' ->
     positions st' = positions st /\
     exists sp1 pt1 pk1,
       find_objects_stats (subtract_sky file) (starting_positions st)
         (positions st) = Ok (sp1, pt1, pk1) /\
       recorded names file st st' pt1 pk1) /\
  (forall files st st',
     rounds (starting_positions st) = Ok n ->
     (n <= S (starting_positions_index st))%nat ->
     process_frames names st files = Ok st' ->
     positions st' = positions st).
Proof.
  assert (Hframe : forall st file st',
     rounds (starting_positions st) = Ok n ->
     (n <= S (starting_positions_index st))%nat ->
     process_frame names st file = Ok st' ->
     positions st' = positions st /\
     exists sp1 pt1 pk1,
       find_objects_stats (subtract_sky file) (starting_positions st)
         (positions st) = Ok (sp1, pt1, pk1) /\
       recorded names file st st' pt1 pk1).
  { intros st file st' Hn Hle Hp.
    apply process_frame_inv in Hp
      as (sp1 & pt1 & pk1 & sp2 & pt2 & pk2 & rows & Hf & Hr & Hc & _ & Ht).
    pose proof (find_objects_stats_lengths _ _ _ _ _ _ Hf) as (_ & _ & _ & Hr1).
    apply retrack_inv in Hr
      as [(_ & _ & -> & Hcol & -> & ->)
         |(_ & _ & m & Hm & [(Hlt & _)|(_ & -> & Hcol & -> & ->)])].
    - split; [exact Hcol|]. exists sp1, pt1, pk1. split; [exact Hf|].
      exists rows. auto.
    - exfalso. rewrite Hr1, Hn in Hm. inversion Hm; subst. lia.
    - split; [exact Hcol|]. exists sp1, pt1, pk1. split; [exact Hf|].
      exists rows. auto. }
  split; [exact Hframe|].
  induction files as [|f files IH]; intros st st' Hn Hle Hp; simpl in Hp.
  - inversion Hp; subst. reflexivity.
  - apply bind_Ok_inv in Hp as (st1 & Hf & Hp).
    pose proof (process_frame_shape _ _ _ _ Hf) as (_ & Hr & _).
    pose proof (process_frame_index _ _ _ _ Hf) as Hidx.
    destruct (Hframe _ _ _ Hn Hle Hf) as [Hcol _].
    rewrite <- Hcol. apply IH; [congruence| |exact Hp].
    destruct (first_pass_negative st f); lia.
Qed.

End ShapeFacts.

Lemma run_keeps_table_shape_witness :
  exists st',
    @process_frames Examples.default_config Examples.test_extern
      ["A0620"%string] (initial [[(12, 15)]])
      [Examples.file_of "f1" Examples.dip;
       Examples.file_of "f2" Examples.dip] = Ok st'
    /\ length <$> starting_positions st' = [1%nat]
    /\ (positions st' < 1)%nat.
Proof.
  assert (Hrun : exists st',
            @process_frames Examples.default_config Examples.test_extern
              ["A0620"%string] (initial [[(12, 15)]])
              [Examples.file_of "f1" Examples.dip;
               Examples.file_of "f2" Examples.dip] = Ok st')
    by (eexists; vm_compute; reflexivity).
  destruct Hrun as [st' Hrun]. exists st'. split; [exact Hrun|].
  destruct (@run_keeps_table_shape Examples.default_config
              Examples.test_extern _ _ _ _ Hrun) as (Hs & _ & Hv).
  split; [exact Hs|]. apply Hv; [reflexivity | simpl; lia].
Defined.

Lemma no_retry_after_last_round_witness :
  exists st',
    @process_frames Examples.default_config Examples.test_extern
      ["A0620"%string] (initial [[(12, 15)]])
      [Examples.file_of "f1" Examples.dip;
       Examples.file_of "f2" Examples.dip] = Ok st'
    /\ positions st' = 0%nat.
Proof.
  assert (Hrun : exists st',
            @process_frames Examples.default_config Examples.test_extern
              ["A0620"%string] (initial [[(12, 15)]])
              [Examples.file_of "f1" Examples.dip;
               Examples.file_of "f2" Examples.dip] = Ok st')
    by (eexists; vm_compute; reflexivity).
  destruct Hrun as [st' Hrun]. exists st'. split; [exact Hrun|].
  destruct (@no_retry_after_last_round Examples.default_config
              Examples.test_extern ["A0620"%string] 1) as [_ Hruns].
  refine (Hruns _ (initial [[(12, 15)]]) st' _ _ Hrun);
    [reflexivity | simpl; lia].
Defined.

(** ** Sorting the frames by filter *)

Section GroupFacts.
Import Reduction.
#[local] Existing Instance string_eq_dec.

Lemma np_unique_elem_of (values : list string) (v : string) :
  v ∈ np_unique values <-> v ∈ values.
Proof.
  unfold np_unique. rewrite merge_sort_Permutation. apply elem_of_remove_dups.
Qed.

Lemma np_unique_NoDup (values : list string) : NoDup (np_unique values).
Proof.
  unfold np_unique. rewrite merge_sort_Permutation. apply NoDup_remove_dups.
Qed.

Lemma sum_list_with_add {A} (a b : A -> nat) (l : list A) :
  sum_list_with (fun k => a k + b k)%nat l
  = (sum_list_with a l + sum_list_with b l)%nat.
Proof. induction l as [|k l IH]; simpl; [reflexivity | rewrite IH; lia]. Qed.

Lemma sum_list_with_pointwise {A} (a b : A -> nat) (l : list A) :
  (forall k, a k = b k) -> sum_list_with a l = sum_list_with b l.
Proof.
  intros Hab. induction l as [|k l IH]; simpl; [reflexivity|].
  rewrite Hab, IH. reflexivity.
Qed.

Lemma sum_list_with_map {A B} (a : B -> nat) (g : A -> B) (l : list A) :
  sum_list_with a (g <$> l) = sum_list_with (fun k => a (g k)) l.
Proof.
  induction l as [|k l IH]; [reflexivity|].
  rewrite fmap_cons. cbn [sum_list_with]. rewrite IH. reflexivity.
Qed.

Lemma filter_all {A} (P : A -> Prop) `{forall x, Decision (P x)} (l : list A) :
  (forall x, x ∈ l -> P x) -> filter P l = l.
Proof.
  induction l as [|x l IH]; intros Hall; [reflexivity|].
  rewrite filter_cons_True by (apply Hall; left).
  f_equal. apply IH. intros y Hy. apply Hall. right. exact Hy.
Qed.

Lemma sum_indicator (keys : list string) (x : string) :
  NoDup keys ->
  sum_list_with (fun k => if decide (x = k) then 1 else 0)%nat keys
  = if decide (x ∈ keys) then 1%nat else 0%nat.
Proof.
  induction 1 as [|k keys Hk Hnd IH]; simpl.
  - destruct (decide (x ∈ [])) as [Hin|_]; [inversion Hin | reflexivity].
  - rewrite IH. destruct (decide (x = k)) as [->|Hne].
    + destruct (decide (k ∈ keys)); [contradiction|].
      destruct (decide (k ∈ k :: keys)) as [_|Hn]; [reflexivity|].
      exfalso. apply Hn. left.
    + destruct (decide (x ∈ keys)) as [Hin|Hnin];
        destruct (decide (x ∈ k :: keys)) as [Hin'|Hnin']; try reflexivity.
      * exfalso. apply Hnin'. right. exact Hin.
      * exfalso. apply elem_of_cons in Hin' as [?|?]; contradiction.
Qed.

(** The groups of distinct keys count each file whose key is among them
    once. *)
Lemma group_sizes (files : list fits_file) (keys : list string) :
  NoDup keys ->
  sum_list_with
    (fun k => length (filter (fun f => file_filter f = k) files)) keys
  = length (filter (fun f => file_filter f ∈ keys) files).
Proof.
  intros Hnd. induction files as [|f files IH].
  - clear Hnd. induction keys as [|k keys IHk]; [reflexivity | exact IHk].
  - rewrite (sum_list_with_pointwise
               (fun k => length (filter (fun f0 => file_filter f0 = k)
                                   (f :: files)))
               (fun k => (if decide (file_filter f = k) then 1 else 0)
                         + length (filter (fun f0 => file_filter f0 = k)
                                     files))%nat).
    + rewrite sum_list_with_add, IH, (sum_indicator _ _ Hnd).
      rewrite (filter_cons (fun f0 => file_filter f0 ∈ keys)).
      destruct (decide (file_filter f ∈ keys)); reflexivity.
    + intros k. rewrite filter_cons.
      destruct (decide (file_filter f = k)); reflexivity.
Qed.

(** X16. Cell 18 sorts the raw frames into one group for each filter: the
    keys of [raw_fits_dict] are pairwise different, the group of a key holds
    exactly the frames of that filter in the order of the directory listing and
    is never empty, every frame is in the group of its filter, and the sizes of
    the groups add up to the number of frames. *)
Theorem raw_frames_partitioned (raw : list fits_file) :
  NoDup (fst <$> raw_fits_dict raw) /\
  (forall bandpass group,
     (bandpass, group) ∈ raw_fits_dict raw ->
     group = raw_per_bandpass raw bandpass /\ group <> []) /\
  (forall f, f ∈ raw ->
     exists group,
       (file_filter f, group) ∈ raw_fits_dict raw /\
       (file_name f, file_data f) ∈ group) /\
  sum_list_with (fun kv => length (snd kv)) (raw_fits_dict raw) = length raw.
Proof.
  unfold raw_fits_dict, raw_fits_filters. split; [|split; [|split]].
  - rewrite <- list_fmap_compose.
    rewrite (list_fmap_ext _ id (np_unique (file_filter <$> raw)))
      by reflexivity.
    rewrite list_fmap_id. apply np_unique_NoDup.
  - intros bandpass group Hin.
    apply list_elem_of_fmap in Hin as (b & Heq & Hb). inversion Heq; subst.
    split; [reflexivity|].
    apply np_unique_elem_of, list_elem_of_fmap in Hb as (f & -> & Hf).
    unfold raw_per_bandpass. intros Hnil.
    apply fmap_nil_inv in Hnil.
    assert (Hfin : f ∈ filter (fun f0 => file_filter f0 = file_filter f) raw)
      by (apply list_elem_of_filter; auto).
    rewrite Hnil in Hfin. inversion Hfin.
  - intros f Hf. exists (raw_per_bandpass raw (file_filter f)). split.
    + apply list_elem_of_fmap. exists (file_filter f). split; [reflexivity|].
      apply np_unique_elem_of, list_elem_of_fmap_2, Hf.
    + unfold raw_per_bandpass.
      apply (list_elem_of_fmap_2 (fun f0 => (file_name f0, file_data f0))).
      apply list_elem_of_filter. auto.
  - rewrite sum_list_with_map. unfold raw_per_bandpass. simpl.
    rewrite (sum_list_with_pointwise _
               (fun k => length (filter (fun f => file_filter f = k) raw)))
      by (intros k; apply length_fmap).
    rewrite group_sizes by apply np_unique_NoDup.
    f_equal. apply filter_all. intros f Hf.
    apply np_unique_elem_of, list_elem_of_fmap_2, Hf.
Qed.

(** X17. The flat frames are sorted under the filters of the raw frames, not
    under their own: [flat_dict] has the keys of [raw_fits_dict] in the same
    order, the group of a key has one entry for each flat of that filter, which
    is none when no flat has it, and the flats whose filter no raw frame has
    are in no group, so the sizes of the groups add up to the number of flats
    whose filter is a filter of some raw frame. *)
Theorem flats_follow_raw_filters (raw flats : list fits_file) :
  fst <$> flat_dict raw flats = fst <$> raw_fits_dict raw /\
  (forall bandpass group,
     (bandpass, group) ∈ flat_dict raw flats ->
     length group
     = length (filter (fun f => file_filter f = bandpass) flats)) /\
  sum_list_with (fun kv => length (snd kv)) (flat_dict raw flats)
  = length (filter (fun f => file_filter f ∈ file_filter <$> raw) flats).
Proof.
  unfold flat_dict, raw_fits_dict. split; [|split].
  - rewrite <- !list_fmap_compose. reflexivity.
  - intros bandpass group Hin.
    apply list_elem_of_fmap in Hin as (b & Heq & _). inversion Heq; subst.
    unfold flat_per_bandpass. apply length_fmap.
  - rewrite sum_list_with_map. unfold flat_per_bandpass. simpl.
    rewrite (sum_list_with_pointwise _
               (fun k => length (filter (fun f => file_filter f = k) flats)))
      by (intros k; apply length_fmap).
    unfold raw_fits_filters. rewrite group_sizes by apply np_unique_NoDup.
    f_equal. apply list_filter_iff. intros f. apply np_unique_elem_of.
Qed.

End GroupFacts.

Lemma has_fits_file_extension_spec_witness :
  exists b,
    Files.has_fits_file_extension "proc_a0620.fits" = Ok b /\ b = true.
Proof.
  destruct (has_fits_file_extension_spec "proc_a0620.fits")
    as (b & Hb & Hiff).
  exists b. split; [exact Hb|].
  apply Hiff. right. exists "proc_a0620"%string. reflexivity.
Defined.

Lemma raw_frames_partitioned_witness :
  exists group,
    ("R"%string, group)
      ∈ Reduction.raw_fits_dict
          [ {| Reduction.file_name := "a.fits"; Reduction.file_filter := "R";
               Reduction.file_data := [] |};
            {| Reduction.file_name := "b.fits"; Reduction.file_filter := "I";
               Reduction.file_data := [] |} ]
    /\ ("a.fits"%string, []) ∈ group.
Proof.
  destruct (raw_frames_partitioned
              [ {| Reduction.file_name := "a.fits"; Reduction.file_filter := "R";
                   Reduction.file_data := [] |};
                {| Reduction.file_name := "b.fits"; Reduction.file_filter := "I";
                   Reduction.file_data := [] |} ])
    as (_ & _ & Hin & _).
  apply (Hin {| Reduction.file_name := "a.fits"; Reduction.file_filter := "R";
                Reduction.file_data := [] |}).
  left.
Defined.

Lemma flats_follow_raw_filters_witness :
  exists group,
    ("R"%string, group)
      ∈ Reduction.flat_dict
          [ {| Reduction.file_name := "a.fits"; Reduction.file_filter := "R";
               Reduction.file_data := [] |} ]
          [ {| Reduction.file_name := "flat1.fits";
               Reduction.file_filter := "I"; Reduction.file_data := [] |} ]
    /\ length group = 0%nat.
Proof.
  destruct (flats_follow_raw_filters
              [ {| Reduction.file_name := "a.fits"; Reduction.file_filter := "R";
                   Reduction.file_data := [] |} ]
              [ {| Reduction.file_name := "flat1.fits";
                   Reduction.file_filter := "I"; Reduction.file_data := [] |} ])
    as (_ & Hlen & _).
  assert (Hin : ("R"%string, [])
      ∈ Reduction.flat_dict
          [ {| Reduction.file_name := "a.fits"; Reduction.file_filter := "R";
               Reduction.file_data := [] |} ]
          [ {| Reduction.file_name := "flat1.fits";
               Reduction.file_filter := "I"; Reduction.file_data := [] |} ])
    by (vm_compute; left).
  exists []. split; [exact Hin|]. rewrite (Hlen _ _ Hin). reflexivity.
Defined.

(** ** A position at a corner, and a frame that raises *)

Section CornerFacts.
Context `{Config} `{Extern}.



(** X19. A frame whose iteration raises aborts the loop: when the frames
    before it were processed and its own iteration raises, the loop over all
    the frames raises whatever frames follow, and so does the pipeline, which
    returns no table at all, the rows of the frames already processed being
    lost with it. *)
Theorem failing_frame_aborts_run (names : list string) (st st1 : state)
  (files1 files2 : list fits) (file : fits) :
  process_frames names st files1 = Ok st1 ->
  raises (process_frame names st1 file) ->
  raises (process_frames names st (files1 ++ file :: files2)) /\
  (forall text sp,
     read_coords text = Ok (names, sp) -> st = initial sp ->
     raises (pipeline text (files1 ++ file :: files2))).
Proof.
  intros H1 Hr.
  assert (Hrun : raises (process_frames names st (files1 ++ file :: files2))).
  { rewrite process_frames_app, H1. cbn [mbind result_bind].
    simpl. apply bind_raises, Hr. }
  split; [exact Hrun|].
  intros text sp Hread ->. unfold pipeline. rewrite Hread.
  cbn [mbind result_bind].
  destruct (get_pos sp 0 0); cbn [mbind result_bind]; [|eexists; reflexivity].
  apply bind_raises, Hrun.
Qed.

End CornerFacts.


Lemma failing_frame_aborts_run_witness :
  raises (@process_frames Examples.default_config Examples.test_extern
            ["A0620"%string] (initial [[(14, 12)]])
            ([Examples.file_of "f1" Examples.star]
               ++ Examples.file_of "f2" Examples.ones
               :: [Examples.file_of "f3" Examples.star])).
Proof.
  assert (Hrun : exists st1,
            @process_frames Examples.default_config Examples.test_extern
              ["A0620"%string] (initial [[(14, 12)]])
              [Examples.file_of "f1" Examples.star] = Ok st1
            /\ @process_frame Examples.default_config Examples.test_extern
                 ["A0620"%string] st1 (Examples.file_of "f2" Examples.ones)
               = Raise ValueError)
    by (eexists; split; [vm_compute; reflexivity|]; vm_compute; reflexivity).
  destruct Hrun as (st1 & H1 & H2).
  apply (@failing_frame_aborts_run Examples.default_config
           Examples.test_extern _ _ st1 _ _ _ H1).
  rewrite H2. eexists; reflexivity.
Defined.
